(** * Mount, MountInfo and the anonymous filesystem of the starnix VFS layer

    A shallow embedding of
      - [vfs/mount.cc]     (MountInfo::flags, MountInfo::check_readonly_filesystem,
                            Mount::root, Mount::mountpoint, Mount::flags,
                            Mount::New, Mount::new_with_root, Mount::Mount)
      - [vfs/anon_node.cc] (anon_fs)
    together with the properties of the mount layer that the design
    document states.

    Conventions of the embedding.
      - An object that is only read once built (a FileSystem, a DirEntry,
        a Mount) is a record value; a strong [fbl::RefPtr] to it is that
        value.  [MountHandle] alone is nullable, because the code builds
        null mount handles ([MountHandle()], a failed [Lock()]).
      - An object that is mutated in place or reached through a weak
        pointer lives in the [World] store under its address; a weak
        pointer is an address and [Lock()] is a lookup there.
      - A failed [ASSERT] / [ZX_ASSERT] stops the kernel: [Panic].  A
        [fit::result] is an ordinary value. *)

From Stdlib Require Import ZArith String Lia.
From stdpp Require Import base option gmap strings.

(** ** Outcomes *)

(** What a call does: it returns a value, or an assertion fails. *)
Inductive outcome (A : Type) : Type :=
| Ret (a : A)
| Panic (msg : string).
Arguments Ret {A} a.
Arguments Panic {A} msg.

(** [fit::result<E, T>] ; [fit::result<E>] is [fit_result E unit]. *)
Inductive fit_result (E T : Type) : Type :=
| fit_ok (t : T)
| fit_error (e : E).
Arguments fit_ok {E T} t.
Arguments fit_error {E T} e.

(** [Errno], built by [errno(code)] and read by [error_code()]. *)
Record Errno : Type := errno { error_code : Z }.

(** The Linux error number of a read-only filesystem. *)
Definition EROFS : Z := 30%Z.

(** ** Mount flags *)

(** [MountFlags]: a bit set over [uint32_t]. *)
Record MountFlags : Type := MountFlags_of { bits : Z }.

(** Modelled from the spec: the header [starnix_uapi/mount_flags.h] is not
    part of the sources, so the bit patterns of the three enumerators that
    mount.cc names are parameters of the development. *)
Class MountFlagsEnum : Type := {
  RDONLY : Z;
  NOATIME : Z;
  STORED_ON_MOUNT : Z;
}.

(** Modelled from the spec: [contains] and [intersects] of the absent
    bit-flags template; "RDONLY is set in flags()" is [contains], and the
    construction contract excludes flags that [intersects] the stored set. *)
Definition MountFlags_contains (f : MountFlags) (e : Z) : bool :=
  (Z.land (bits f) e =? e)%Z.

Definition MountFlags_intersects (f g : MountFlags) : bool :=
  negb (Z.land (bits f) (bits g) =? 0)%Z.

(** ** Objects *)

Abbreviation addr := nat (only parsing).

(** [CacheModeType]; anon_node.cc names the one enumerator below. *)
Inductive CacheModeType : Type := Uncached.

(** A [FileSystem] as the code under study reads it: the weak pointer to
    its kernel ([kernel_]), and what [FileSystem::New] was given. *)
Record FileSystem : Type := {
  fs_addr : addr;
  kernel_ : addr;
  fs_cache_mode : CacheModeType;
  fs_ops : addr;
}.
Definition FileSystemHandle : Type := FileSystem.

Record FsNode : Type := {
  node_addr : addr;
  node_fs : FileSystemHandle;
}.

(** Modelled from the spec: [FsNode::fs()] is not part of the sources; a
    backing node "belongs to a FileSystem" and hands it out. *)
Definition FsNode_fs (n : FsNode) : FileSystemHandle := node_fs n.

Record DirEntry : Type := {
  entry_addr : addr;
  node_ : FsNode;
}.
Definition DirEntryHandle : Type := DirEntry.

(** [MountState::mountpoint]: the weak pointer to the parent mount and the
    entry this mount is grafted on. *)
Record MountState : Type := {
  mountpoint : option (addr * DirEntryHandle);
}.

Record Mount : Type := {
  id_ : Z;
  flags_ : MountFlags;
  root_ : DirEntryHandle;
  fs_ : FileSystemHandle;
  state_ : MountState;
}.

(** [fbl::RefPtr<Mount>]; [None] is the null handle. *)
Definition MountHandle : Type := option Mount.

(** [Mount::Mount(id, flags, root, fs)].  The initialiser list leaves
    [state_] to its default, an empty [mountpoint]. *)
Definition Mount_Mount (id : Z) (flags : MountFlags) (root : DirEntryHandle)
    (fs : FileSystemHandle) : Mount :=
  {| id_ := id; flags_ := flags; root_ := root; fs_ := fs;
     state_ := {| mountpoint := None |} |}.

(** [MountInfo]: [handle_] is a [ktl::optional<MountHandle>]. *)
Record MountInfo : Type := {
  handle_ : option MountHandle;
}.

Record NamespaceNode : Type := {
  mount_ : MountInfo;
  entry_ : DirEntryHandle;
}.

(** The two mount contexts of the design: attached to a mount, or detached. *)
Definition MountInfo_attached (m : Mount) : MountInfo :=
  {| handle_ := Some (Some m) |}.

(** [MountInfo::detached()] *)
Definition MountInfo_detached : MountInfo := {| handle_ := None |}.

(** Modelled from the spec: [NamespaceNode::New(mount, entry)] is not part
    of the sources; a namespace location is the pair of a mount context
    and an entry, so [New] wraps the handle it is given. *)
Definition NamespaceNode_New (mount : MountHandle) (entry : DirEntryHandle)
    : NamespaceNode :=
  {| mount_ := {| handle_ := Some mount |}; entry_ := entry |}.

(** ** The store *)

(** [OnceCell<T>]: empty until set, then fixed.
    Modelled from the spec: the cell template is not part of the sources;
    it holds the "lazily-constructed" value, [is_initialized] tells whether
    it is there, [set] fills an empty cell and [get] reads a filled one. *)
Definition OnceCell (T : Type) : Type := option T.

Definition OnceCell_is_initialized {T} (c : OnceCell T) : bool :=
  match c with Some _ => true | None => false end.

Definition OnceCell_set {T} (c : OnceCell T) (v : T) : OnceCell T :=
  match c with Some old => Some old | None => Some v end.

Definition OnceCell_get {T} (c : OnceCell T) : outcome T :=
  match c with
  | Some v => Ret v
  | None => Panic "OnceCell::get on an empty cell"
  end.

(** The two members of [Kernel] that the mount layer uses. *)
Record Kernel : Type := {
  next_mount_id_ : Z;
  anon_fs_ : OnceCell FileSystemHandle;
}.

(** Modelled from the spec: [AtomicCounter<uint64_t>::next()] is not part of
    the sources; the "monotonic mount-id counter" hands out its current
    value and advances by one, in 64-bit arithmetic. *)
Definition AtomicCounter_next (c : Z) : Z * Z := (c, (c + 1) mod 2 ^ 64)%Z.

(** The heap: the next unused address, and how many more objects fit
    before [new (&ac)] fails. *)
Record Heap : Type := {
  next_addr : addr;
  heap_avail : nat;
}.

Record World : Type := {
  kernels : gmap addr Kernel;           (* the live Kernel objects *)
  mounts : gmap addr Mount;             (* the live Mount objects *)
  fs_roots : gmap addr DirEntryHandle;  (* FileSystem::root_, by fs_addr *)
  heap : Heap;
}.

Definition set_kernels (f : gmap addr Kernel → gmap addr Kernel) (w : World) : World :=
  {| kernels := f (kernels w); mounts := mounts w;
     fs_roots := fs_roots w; heap := heap w |}.

Definition set_mounts (f : gmap addr Mount → gmap addr Mount) (w : World) : World :=
  {| kernels := kernels w; mounts := f (mounts w);
     fs_roots := fs_roots w; heap := heap w |}.

Definition set_heap (h : Heap) (w : World) : World :=
  {| kernels := kernels w; mounts := mounts w;
     fs_roots := fs_roots w; heap := h |}.

(** ** Kernel code as state passing with panics *)

Definition M (A : Type) : Type := World → outcome (A * World).

Definition ret {A} (a : A) : M A := fun w => Ret (a, w).

Definition bind {A B} (c : M A) (k : A → M B) : M B :=
  fun w => match c w with
           | Ret (a, w') => k a w'
           | Panic msg => Panic msg
           end.

Definition panic {A} (msg : string) : M A := fun _ => Panic msg.

Notation "'let*' x ':=' c 'in' k" := (bind c (fun x => k))
  (at level 10, x name, c at level 100, k at level 200).
Notation "c ';;' k" := (bind c (fun _ => k))
  (at level 100, k at level 200, right associativity).

(** [ASSERT(cond)] / [ASSERT_MSG(cond, msg)] / [ZX_ASSERT(cond)] *)
Definition ASSERT_MSG (cond : bool) (msg : string) : M unit :=
  if cond then ret tt else panic msg.

(** [fbl::AllocChecker ac; new (&ac) T(...)]: [Some] fresh address, or
    [None] when the heap is exhausted. *)
Definition new_ac : M (option addr) := fun w =>
  match heap_avail (heap w) with
  | O => Ret (None, w)
  | S n => Ret (Some (next_addr (heap w)),
                set_heap {| next_addr := S (next_addr (heap w)); heap_avail := n |} w)
  end.

(** [WeakPtr<Kernel>::Lock()] *)
Definition WeakPtr_Kernel_Lock (p : addr) : M (option Kernel) :=
  fun w => Ret (kernels w !! p, w).

(** [WeakPtr<Mount>::Lock()] *)
Definition WeakPtr_Mount_Lock (p : addr) : M MountHandle :=
  fun w => Ret (mounts w !! p, w).

(** Reading through a strong [fbl::RefPtr<Kernel>]. *)
Definition Kernel_deref (kernel : addr) : M Kernel := fun w =>
  match kernels w !! kernel with
  | Some k => Ret (k, w)
  | None => Panic "dereferenced a null fbl::RefPtr<Kernel>"
  end.

Definition Kernel_store (kernel : addr) (k : Kernel) : M unit :=
  fun w => Ret (tt, set_kernels (fun ks => <[kernel := k]> ks) w).

(** [kernel->next_mount_id_.next()] *)
Definition Kernel_next_mount_id (kernel : addr) : M Z :=
  let* k := Kernel_deref kernel in
  let '(id, c') := AtomicCounter_next (next_mount_id_ k) in
  Kernel_store kernel {| next_mount_id_ := c'; anon_fs_ := anon_fs_ k |} ;;
  ret id.

(** Modelled from the spec: [FileSystem::root()] is not part of the sources;
    it reads the root entry kept in the filesystem's [root_] cell. *)
Definition FileSystem_root (fs : FileSystemHandle) : M DirEntryHandle := fun w =>
  match OnceCell_get (fs_roots w !! fs_addr fs) with
  | Ret r => Ret (r, w)
  | Panic msg => Panic msg
  end.

(** Modelled from the spec: [FileSystem::New(kernel, options, ops, ...)] is
    not part of the sources; it builds a new FileSystem object that keeps a
    weak pointer to [kernel]. *)
Definition FileSystem_New (kernel : addr) (mode : CacheModeType) (ops : addr)
    : M FileSystemHandle :=
  let* p := new_ac in
  match p with
  | None => panic "ZX_ASSERT(ac.check())"
  | Some a =>
      ret {| fs_addr := a; kernel_ := kernel; fs_cache_mode := mode; fs_ops := ops |}
  end.

(** ** mount.cc *)

Section MountCode.
Context `{E : MountFlagsEnum}.

(** [Mount::flags() const] *)
Definition Mount_flags (m : Mount) : MountFlags := flags_ m.

(** [MountInfo::flags()].  [handle_.value()->flags()] goes through the
    handle, so a null handle inside the optional stops the kernel. *)
Definition MountInfo_flags (mi : MountInfo) : outcome MountFlags :=
  match handle_ mi with
  | Some (Some m) => Ret (Mount_flags m)
  | Some None => Panic "dereferenced a null fbl::RefPtr<Mount>"
  | None =>
      (* Consider not mounted node have the NOATIME flags. *)
      Ret (MountFlags_of NOATIME)
  end.

(** [MountInfo::check_readonly_filesystem()] *)
Definition MountInfo_check_readonly_filesystem (mi : MountInfo)
    : outcome (fit_result Errno unit) :=
  match MountInfo_flags mi with
  | Ret f =>
      if MountFlags_contains f RDONLY
      then Ret (fit_error (errno EROFS))
      else Ret (fit_ok tt)
  | Panic msg => Panic msg
  end.

(** [Mount::root()] *)
Definition Mount_root (this : Mount) : NamespaceNode :=
  {| mount_ := {| handle_ := Some (Some this) |}; entry_ := root_ this |}.

(** [Mount::mountpoint() const].  [state->mountpoint.value()] is taken
    without a test: on an empty optional [value()] does not return. *)
Definition Mount_mountpoint (this : Mount) : M (option NamespaceNode) :=
  match mountpoint (state_ this) with
  | None => panic "bad_optional_access"
  | Some (mount, entry) =>
      let* parent := WeakPtr_Mount_Lock mount in
      ret (Some (NamespaceNode_New parent entry))
  end.

(** [Mount::new_with_root(root, flags)] *)
Definition Mount_new_with_root (root : DirEntryHandle) (flags : MountFlags)
    : M MountHandle :=
  let known_flags := MountFlags_of STORED_ON_MOUNT in
  ASSERT_MSG (negb (MountFlags_intersects flags known_flags))
             "ASSERT(!flags.intersects(known_flags))" ;;
  let fs := FsNode_fs (node_ root) in
  let* kernel := WeakPtr_Kernel_Lock (kernel_ fs) in
  match kernel with
  | None => panic "can't create mount without a kernel"
  | Some _ =>
      let* p := new_ac in
      match p with
      | None => panic "ZX_ASSERT(ac.check())"
      | Some a =>
          let* id := Kernel_next_mount_id (kernel_ fs) in
          let handle := Mount_Mount id flags root fs in
          (fun w => Ret (tt, set_mounts (fun ms => <[a := handle]> ms) w)) ;;
          ret (Some handle)
      end
  end.

(** [WhatToMount]: the tag and the variant it is meant to select. *)
Inductive WhatToMountEnum : Type := Fs | Bind.

Record WhatToMount : Type := {
  type : WhatToMountEnum;
  what : FileSystemHandle + NamespaceNode;
}.

(** [Mount::New(what, flags)] *)
Definition Mount_New (what_ : WhatToMount) (flags : MountFlags) : M MountHandle :=
  match type what_ with
  | Fs =>
      match what what_ with
      | inl fs =>
          let* root := FileSystem_root fs in
          Mount_new_with_root root flags
      | inr _ => panic "bad_variant_access"
      end
  | Bind => ret None
  end.

End MountCode.

(** ** anon_node.cc *)

(** [anon_fs(kernel)] *)
Definition anon_fs (kernel : addr) : M FileSystemHandle :=
  let* k := Kernel_deref kernel in
  (if negb (OnceCell_is_initialized (anon_fs_ k)) then
     let* anonfs := new_ac in
     match anonfs with
     | None => panic "ZX_ASSERT(ac.check())"
     | Some ops =>
         let* fs := FileSystem_New kernel Uncached ops in
         let* k := Kernel_deref kernel in
         Kernel_store kernel {| next_mount_id_ := next_mount_id_ k;
                                anon_fs_ := OnceCell_set (anon_fs_ k) fs |}
     end
   else ret tt) ;;
  let* k := Kernel_deref kernel in
  fun w => match OnceCell_get (anon_fs_ k) with
           | Ret fs => Ret (fs, w)
           | Panic msg => Panic msg
           end.

(** ** Runs of the kernel interface *)

(** A call into the code above, and what the caller gets back. *)
Inductive call : Type :=
| call_new_with_root (root : DirEntryHandle) (flags : MountFlags)
| call_New (what_ : WhatToMount) (flags : MountFlags)
| call_anon_fs (kernel : addr).

Inductive event : Type :=
| ev_mount (h : MountHandle)
| ev_anon_fs (kernel : addr) (fs : FileSystemHandle).

Section Runs.
Context `{E : MountFlagsEnum}.

Definition run_call (c : call) : M event :=
  match c with
  | call_new_with_root root flags =>
      let* h := Mount_new_with_root root flags in ret (ev_mount h)
  | call_New what_ flags =>
      let* h := Mount_New what_ flags in ret (ev_mount h)
  | call_anon_fs kernel =>
      let* fs := anon_fs kernel in ret (ev_anon_fs kernel fs)
  end.

(** The calls of [cs] one after the other, on one thread. *)
Fixpoint run (cs : list call) : M (list event) :=
  match cs with
  | [] => ret []
  | c :: cs' =>
      let* e := run_call c in
      let* es := run cs' in
      ret (e :: es)
  end.

End Runs.

(** The mounts that a run created for filesystems of kernel [k], oldest first. *)
Fixpoint mounts_of (k : addr) (es : list event) : list Mount :=
  match es with
  | [] => []
  | ev_mount (Some m) :: es' =>
      if decide (kernel_ (fs_ m) = k) then m :: mounts_of k es' else mounts_of k es'
  | _ :: es' => mounts_of k es'
  end.

(** The handles that a run's [anon_fs(k)] calls returned, oldest first. *)
Fixpoint anon_fs_of (k : addr) (es : list event) : list FileSystemHandle :=
  match es with
  | [] => []
  | ev_anon_fs k' fs :: es' =>
      if decide (k' = k) then fs :: anon_fs_of k es' else anon_fs_of k es'
  | _ :: es' => anon_fs_of k es'
  end.

(** * The vocabulary of the properties *)

(** ** Stores after a call *)

(** The world after [Mount::new_with_root] has built a mount at the fresh
    address: the kernel's counter advanced, the mount object live. *)
Definition world_after_mount (w : World) (ka : addr) (k : Kernel) (m : Mount) : World :=
  {| kernels := <[ka := {| next_mount_id_ := snd (AtomicCounter_next (next_mount_id_ k));
                           anon_fs_ := anon_fs_ k |}]> (kernels w);
     mounts := <[next_addr (heap w) := m]> (mounts w);
     fs_roots := fs_roots w;
     heap := {| next_addr := S (next_addr (heap w));
                heap_avail := pred (heap_avail (heap w)) |} |}.

(** The world after the first [anon_fs(kernel)]: two objects allocated (the
    AnonFs operations, then the FileSystem), the cell filled. *)
Definition world_after_anon_fs (w : World) (ka : addr) (k : Kernel) (fs : FileSystemHandle)
    : World :=
  {| kernels := <[ka := {| next_mount_id_ := next_mount_id_ k; anon_fs_ := Some fs |}]>
                  (kernels w);
     mounts := mounts w;
     fs_roots := fs_roots w;
     heap := {| next_addr := S (S (next_addr (heap w)));
                heap_avail := pred (pred (heap_avail (heap w))) |} |}.

(** The FileSystem object that the first [anon_fs(kernel)] builds in [w]. *)
Definition new_anon_fs (w : World) (ka : addr) : FileSystemHandle :=
  {| fs_addr := S (next_addr (heap w)); kernel_ := ka;
     fs_cache_mode := Uncached; fs_ops := next_addr (heap w) |}.

(** ** Steps *)

Section Relations.
Context `{E : MountFlagsEnum}.

(** What one returning call does to the store, and what it hands back. *)
Inductive step : World → event → World → Prop :=
| step_mount (w : World) (root : DirEntryHandle) (flags : MountFlags) (k : Kernel) :
    MountFlags_intersects flags (MountFlags_of STORED_ON_MOUNT) = false →
    kernels w !! kernel_ (FsNode_fs (node_ root)) = Some k →
    heap_avail (heap w) ≠ O →
    step w
      (ev_mount (Some (Mount_Mount (next_mount_id_ k) flags root (FsNode_fs (node_ root)))))
      (world_after_mount w (kernel_ (FsNode_fs (node_ root))) k
         (Mount_Mount (next_mount_id_ k) flags root (FsNode_fs (node_ root))))
| step_no_mount (w : World) :
    step w (ev_mount None) w
| step_anon_fs_hit (w : World) (kernel : addr) (k : Kernel) (fs : FileSystemHandle) :
    kernels w !! kernel = Some k →
    anon_fs_ k = Some fs →
    step w (ev_anon_fs kernel fs) w
| step_anon_fs_init (w : World) (kernel : addr) (k : Kernel) :
    kernels w !! kernel = Some k →
    anon_fs_ k = None →
    (2 ≤ heap_avail (heap w))%nat →
    step w (ev_anon_fs kernel (new_anon_fs w kernel))
      (world_after_anon_fs w kernel k (new_anon_fs w kernel)).

(** A run is a chain of steps. *)
Inductive steps : World → list event → World → Prop :=
| steps_nil (w : World) : steps w [] w
| steps_cons (w w1 w' : World) (e : event) (es : list event) :
    step w e w1 → steps w1 es w' → steps w (e :: es) w'.

End Relations.

(** ** Assertions, counters and cells *)

Definition flags_assertion : string := "ASSERT(!flags.intersects(known_flags))".
Definition kernel_assertion : string := "can't create mount without a kernel".

(** The stored flags of a mount avoid the STORED_ON_MOUNT bits. *)
Definition avoids_stored_on_mount `{E : MountFlagsEnum} (m : Mount) : Prop :=
  MountFlags_intersects (flags_ m) (MountFlags_of STORED_ON_MOUNT) = false.

(** The value of kernel [k]'s mount-id counter in [w], if the kernel is live. *)
Definition mount_id_counter (w : World) (k : addr) : option Z :=
  next_mount_id_ <$> kernels w !! k.


(** The [anon_fs_] cell of kernel [k] in [w], if the kernel is live. *)
Definition anon_fs_cell (w : World) (k : addr) : option (OnceCell FileSystemHandle) :=
  anon_fs_ <$> kernels w !! k.

(** ** A concrete machine, for running the code *)

(** The Linux uapi bit patterns: MS_RDONLY, MS_NOATIME, and the union of the
    per-mount bits (RDONLY, NOSUID, NODEV, NOEXEC, NOATIME, NODIRATIME,
    RELATIME). *)
Definition linux_uapi : MountFlagsEnum :=
  {| RDONLY := 1; NOATIME := 1024; STORED_ON_MOUNT := 2100239 |}.

(** A filesystem at address 10 of the kernel at address 1, its root entry,
    and a world where that kernel is live, has handed out no mount id yet
    and has no anonymous filesystem. *)
Definition fs10 : FileSystem :=
  {| fs_addr := 10; kernel_ := 1; fs_cache_mode := Uncached; fs_ops := 11 |}.

Definition root10 : DirEntry :=
  {| entry_addr := 12; node_ := {| node_addr := 13; node_fs := fs10 |} |}.

Definition world0 : World :=
  {| kernels := {[ 1 := {| next_mount_id_ := 1; anon_fs_ := None |} ]};
     mounts := ∅;
     fs_roots := {[ 10 := root10 ]};
     heap := {| next_addr := 20; heap_avail := 8 |} |}.

(** The same machine after the kernel at address 1 has been dropped. *)
Definition world_no_kernel : World :=
  {| kernels := ∅; mounts := ∅; fs_roots := {[ 10 := root10 ]};
     heap := {| next_addr := 20; heap_avail := 8 |} |}.


Definition no_flags : MountFlags := MountFlags_of 0.

(** Two mounts of [fs10] with an [anon_fs] call in between, twice. *)
Definition calls0 : list call :=
  [ call_new_with_root root10 no_flags;
    call_anon_fs 1;
    call_New {| type := Fs; what := inl fs10 |} no_flags;
    call_anon_fs 1 ].

Definition returned {A} (o : outcome A) (default : A) : A :=
  match o with Ret a => a | Panic _ => default end.

Definition events0 : list event :=
  fst (returned (@run linux_uapi calls0 world0) ([], world0)).

Definition world1 : World :=
  snd (returned (@run linux_uapi calls0 world0) ([], world0)).

(** * Properties *)

(** ** What one call does, case by case *)

Section CaseAnalysis.
Context `{E : MountFlagsEnum}.

Lemma new_with_root_cases (root : DirEntryHandle) (flags : MountFlags) (w : World) :
  Mount_new_with_root root flags w =
    if MountFlags_intersects flags (MountFlags_of STORED_ON_MOUNT)
    then Panic "ASSERT(!flags.intersects(known_flags))"
    else match kernels w !! kernel_ (FsNode_fs (node_ root)) with
         | None => Panic "can't create mount without a kernel"
         | Some k =>
             match heap_avail (heap w) with
             | O => Panic "ZX_ASSERT(ac.check())"
             | S _ =>
                 let m := Mount_Mount (next_mount_id_ k) flags root (FsNode_fs (node_ root)) in
                 Ret (Some m, world_after_mount w (kernel_ (FsNode_fs (node_ root))) k m)
             end
         end.
Proof.
  unfold Mount_new_with_root, bind, ASSERT_MSG, WeakPtr_Kernel_Lock.
  destruct (MountFlags_intersects _ _); simpl; [reflexivity|].
  destruct (kernels w !! _) as [k|] eqn:Hk; simpl; [|reflexivity].
  unfold new_ac. destruct (heap_avail (heap w)) as [|n] eqn:Hn; simpl; [reflexivity|].
  unfold Kernel_next_mount_id, bind, Kernel_deref, set_heap; simpl.
  rewrite Hk; simpl. unfold world_after_mount, set_mounts, set_kernels; simpl.
  rewrite Hn. reflexivity.
Qed.

Lemma anon_fs_cases (kernel : addr) (w : World) :
  anon_fs kernel w =
    match kernels w !! kernel with
    | None => Panic "dereferenced a null fbl::RefPtr<Kernel>"
    | Some k =>
        match anon_fs_ k with
        | Some fs => Ret (fs, w)
        | None =>
            match heap_avail (heap w) with
            | S (S _) =>
                Ret (new_anon_fs w kernel,
                     world_after_anon_fs w kernel k (new_anon_fs w kernel))
            | _ => Panic "ZX_ASSERT(ac.check())"
            end
        end
    end.
Proof.
  unfold anon_fs, bind, Kernel_deref.
  destruct (kernels w !! kernel) as [k|] eqn:Hk; [|reflexivity].
  destruct (anon_fs_ k) as [fs|] eqn:Hfs; simpl.
  - rewrite Hk, Hfs. reflexivity.
  - unfold new_ac. destruct (heap_avail (heap w)) as [|[|n]] eqn:Hn; simpl; try reflexivity.
    unfold FileSystem_New, bind, new_ac, Kernel_store, set_kernels, set_heap; simpl.
    rewrite Hk; simpl. rewrite lookup_insert_eq; simpl. rewrite Hfs; simpl.
    unfold world_after_anon_fs, new_anon_fs. rewrite Hn. reflexivity.
Qed.

End CaseAnalysis.

(** ** MountInfo: flags and the read-only check *)

Lemma MountInfo_flags_attached `{E : MountFlagsEnum} (m : Mount) :
  MountInfo_flags (MountInfo_attached m) = Ret (Mount_flags m).
Proof. reflexivity. Qed.

Lemma MountInfo_flags_detached `{E : MountFlagsEnum} :
  MountInfo_flags MountInfo_detached = Ret (MountFlags_of NOATIME).
Proof. reflexivity. Qed.

(** A mount context is detached, attached to a mount, or holds a null
    handle; [flags()] returns for the first two and only for them. *)
Lemma MountInfo_flags_returns `{E : MountFlagsEnum} (mi : MountInfo) :
  (∃ f, MountInfo_flags mi = Ret f) ↔
  mi = MountInfo_detached ∨ ∃ m, mi = MountInfo_attached m.
Proof.
  destruct mi as [[[m|]|]]; unfold MountInfo_flags; simpl; split.
  - intros _. right. exists m. reflexivity.
  - intros _. eexists. reflexivity.
  - intros [f Hf]. discriminate.
  - intros [Hd | [m Hm]]; discriminate.
  - intros _. left. reflexivity.
  - intros _. eexists. reflexivity.
Qed.

(** C3. [MountInfo::flags()] of an attached context is the flag set of the
    mount it is attached to; of the detached context it is the set built
    from NOATIME alone, bit for bit, and the call returns (no assertion
    fails) in both cases. *)
Theorem MountInfo_flags_attached_or_detached `{E : MountFlagsEnum} :
  (∀ m : Mount, MountInfo_flags (MountInfo_attached m) = Ret (flags_ m)) ∧
  MountInfo_flags MountInfo_detached = Ret (MountFlags_of NOATIME) ∧
  (∀ f : MountFlags, MountInfo_flags MountInfo_detached = Ret f →
     bits f = NOATIME ∧ ∀ i : Z, Z.testbit (bits f) i = Z.testbit NOATIME i).
Proof.
  split; [|split].
  - intros m. apply MountInfo_flags_attached.
  - apply MountInfo_flags_detached.
  - intros f Hf. rewrite MountInfo_flags_detached in Hf.
    injection Hf as <-. simpl. split; [reflexivity | intros i; reflexivity].
Qed.

(** The read-only check is decided by [contains(RDONLY)] on whatever
    [flags()] returned. *)
Lemma check_readonly_filesystem_of_flags `{E : MountFlagsEnum} (mi : MountInfo) (f : MountFlags) :
  MountInfo_flags mi = Ret f →
  MountInfo_check_readonly_filesystem mi =
    Ret (if MountFlags_contains f RDONLY then fit_error (errno EROFS) else fit_ok tt).
Proof.
  intros Hf. unfold MountInfo_check_readonly_filesystem. rewrite Hf.
  destruct (MountFlags_contains f RDONLY); reflexivity.
Qed.

(** C2. For an attached or detached context, [check_readonly_filesystem()]
    returns the error EROFS exactly when [flags()] contains RDONLY and
    returns ok otherwise.  The detached context returns ok (its NOATIME set
    does not contain the RDONLY bits), and a context attached to a mount
    that [Mount::Mount] built, or [new_with_root] returned, with flags
    containing RDONLY returns EROFS. *)
Theorem check_readonly_filesystem_iff_RDONLY `{E : MountFlagsEnum}
    (Hbits : Z.land NOATIME RDONLY ≠ RDONLY) :
  (∀ mi : MountInfo,
     mi = MountInfo_detached ∨ (∃ m, mi = MountInfo_attached m) →
     ∃ f, MountInfo_flags mi = Ret f ∧
       (MountInfo_check_readonly_filesystem mi = Ret (fit_error (errno EROFS))
          ↔ MountFlags_contains f RDONLY = true) ∧
       (MountInfo_check_readonly_filesystem mi = Ret (fit_ok tt)
          ↔ MountFlags_contains f RDONLY = false)) ∧
  MountInfo_check_readonly_filesystem MountInfo_detached = Ret (fit_ok tt) ∧
  (∀ id flags root fs,
     MountFlags_contains flags RDONLY = true →
     MountInfo_check_readonly_filesystem
       (MountInfo_attached (Mount_Mount id flags root fs)) = Ret (fit_error (errno EROFS))) ∧
  (∀ root flags w m w',
     Mount_new_with_root root flags w = Ret (Some m, w') →
     MountFlags_contains flags RDONLY = true →
     MountInfo_check_readonly_filesystem (MountInfo_attached m)
       = Ret (fit_error (errno EROFS))).
Proof.
  assert (Hctor : ∀ id flags root fs,
     MountFlags_contains flags RDONLY = true →
     MountInfo_check_readonly_filesystem
       (MountInfo_attached (Mount_Mount id flags root fs)) = Ret (fit_error (errno EROFS))).
  { intros id flags root fs Hro.
    rewrite (check_readonly_filesystem_of_flags _ flags
               (MountInfo_flags_attached (Mount_Mount id flags root fs))).
    rewrite Hro. reflexivity. }
  split; [|split; [|split; [exact Hctor|]]].
  - intros mi Hctx. apply MountInfo_flags_returns in Hctx as [f Hf].
    exists f. split; [exact Hf|].
    rewrite (check_readonly_filesystem_of_flags mi f Hf).
    destruct (MountFlags_contains f RDONLY); split; split; congruence.
  - rewrite (check_readonly_filesystem_of_flags _ _ MountInfo_flags_detached).
    unfold MountFlags_contains; simpl.
    destruct (Z.eqb_spec (Z.land NOATIME RDONLY) RDONLY) as [Heq|_]; [contradiction|reflexivity].
  - intros root flags w m w'. rewrite new_with_root_cases.
    destruct (MountFlags_intersects _ _); [discriminate|].
    destruct (kernels w !! _) as [k|]; [|discriminate].
    destruct (heap_avail (heap w)); [discriminate|].
    simpl. intros [= <- _]. apply Hctor.
Qed.

Lemma check_readonly_filesystem_iff_RDONLY_witness :
  Z.land (@NOATIME linux_uapi) (@RDONLY linux_uapi) ≠ @RDONLY linux_uapi ∧
  @MountInfo_check_readonly_filesystem linux_uapi MountInfo_detached = Ret (fit_ok tt) ∧
  @MountInfo_check_readonly_filesystem linux_uapi
    (MountInfo_attached (Mount_Mount 7%Z (MountFlags_of 1025%Z) root10 fs10))
  = Ret (fit_error (errno EROFS)).
Proof.
  assert (Hbits : Z.land (@NOATIME linux_uapi) (@RDONLY linux_uapi) ≠ @RDONLY linux_uapi)
    by (vm_compute; discriminate).
  split; [exact Hbits|].
  destruct (@check_readonly_filesystem_iff_RDONLY linux_uapi Hbits) as (_ & Hd & Ha & _).
  split; [exact Hd|]. apply Ha. reflexivity.
Defined.

(** ** Mount: root and mountpoint *)

(** C7. [Mount::root()] is the namespace location whose mount context is
    attached to this very mount and whose entry is the mount's root entry.
    It is a total function of the mount alone: it reads no store and
    changes nothing, and the context it returns reports the mount's flags. *)
Theorem Mount_root_is_attached_self (this : Mount) :
  Mount_root this = {| mount_ := MountInfo_attached this; entry_ := root_ this |} ∧
  handle_ (mount_ (Mount_root this)) = Some (Some this) ∧
  entry_ (Mount_root this) = root_ this ∧
  ∀ E : MountFlagsEnum, MountInfo_flags (mount_ (Mount_root this)) = Ret (flags_ this).
Proof. repeat split. Qed.

Lemma Mount_mountpoint_live_parent (this parent : Mount) (p : addr) (entry : DirEntryHandle)
    (w : World) :
  mountpoint (state_ this) = Some (p, entry) →
  mounts w !! p = Some parent →
  Mount_mountpoint this w =
    Ret (Some {| mount_ := MountInfo_attached parent; entry_ := entry |}, w).
Proof.
  intros Hmp Hp. unfold Mount_mountpoint, bind, WeakPtr_Mount_Lock.
  rewrite Hmp, Hp. reflexivity.
Qed.

Lemma Mount_mountpoint_dropped_parent (this : Mount) (p : addr) (entry : DirEntryHandle)
    (w : World) :
  mountpoint (state_ this) = Some (p, entry) →
  mounts w !! p = None →
  Mount_mountpoint this w =
    Ret (Some {| mount_ := {| handle_ := Some None |}; entry_ := entry |}, w).
Proof.
  intros Hmp Hp. unfold Mount_mountpoint, bind, WeakPtr_Mount_Lock.
  rewrite Hmp, Hp. reflexivity.
Qed.

(** C1 (the code at the failing input).  On a mount as [Mount::Mount]
    builds it, a namespace root with no stored mountpoint,
    [Mount::mountpoint()] does not return an empty optional: it stops on
    [value()] of the empty [state->mountpoint].  So it does on every mount
    that [new_with_root] returns.  And [mountpoint()] never returns an
    empty optional, whatever the mount and the store. *)
Theorem Mount_mountpoint_of_namespace_root `{E : MountFlagsEnum} (id : Z)
    (flags : MountFlags) (root : DirEntryHandle) (fs : FileSystemHandle) (w : World) :
  Mount_mountpoint (Mount_Mount id flags root fs) w = Panic "bad_optional_access" ∧
  (∀ (m : Mount) (w' : World),
     Mount_new_with_root root flags w = Ret (Some m, w') →
     Mount_mountpoint m w' = Panic "bad_optional_access") ∧
  ∀ (this : Mount) (w0 w1 : World), Mount_mountpoint this w0 ≠ Ret (None, w1).
Proof.
  split; [reflexivity|]. split.
  - intros m w'. rewrite new_with_root_cases.
    destruct (MountFlags_intersects _ _); [discriminate|].
    destruct (kernels w !! _) as [k|]; [|discriminate].
    destruct (heap_avail (heap w)); [discriminate|].
    simpl. intros [= <- _]. reflexivity.
  - intros this w0 w1. unfold Mount_mountpoint, bind, WeakPtr_Mount_Lock.
    destruct (mountpoint (state_ this)) as [[p entry]|]; discriminate.
Qed.

(** ** Mount: construction *)

Section Construction.
Context `{E : MountFlagsEnum}.

(** C9. [Mount::New] on a Bind-typed [WhatToMount] returns the null handle
    whatever the variant holds and whatever the flags: nothing panics and
    the store is the one before the call, so no Mount object exists that
    did not before, no address was allocated and no kernel's mount-id
    counter moved. *)
Theorem Mount_New_Bind_returns_null (v : FileSystemHandle + NamespaceNode)
    (flags : MountFlags) (w : World) :
  Mount_New {| type := Bind; what := v |} flags w = Ret (None, w).
Proof. reflexivity. Qed.

(** C6. [Mount::New] on a filesystem-backed [WhatToMount] is
    [new_with_root] on [fs->root()]: the same returned handle, the same
    store afterwards, the same assertion failure if one fails. *)
Theorem Mount_New_Fs_is_new_with_root (fs : FileSystemHandle) (flags : MountFlags)
    (w : World) :
  Mount_New {| type := Fs; what := inl fs |} flags w =
    (let* root := FileSystem_root fs in Mount_new_with_root root flags) w ∧
  ∀ root : DirEntryHandle,
    fs_roots w !! fs_addr fs = Some root →
    Mount_New {| type := Fs; what := inl fs |} flags w = Mount_new_with_root root flags w.
Proof.
  split; [reflexivity|].
  intros root Hroot. unfold Mount_New, bind, FileSystem_root; simpl.
  rewrite Hroot. reflexivity.
Qed.

(** What [new_with_root] hands back when it returns. *)
Lemma new_with_root_returned (root : DirEntryHandle) (flags : MountFlags)
    (w w' : World) (h : MountHandle) :
  Mount_new_with_root root flags w = Ret (h, w') →
  MountFlags_intersects flags (MountFlags_of STORED_ON_MOUNT) = false ∧
  heap_avail (heap w) ≠ O ∧
  ∃ k, kernels w !! kernel_ (FsNode_fs (node_ root)) = Some k ∧
       h = Some (Mount_Mount (next_mount_id_ k) flags root (FsNode_fs (node_ root))) ∧
       w' = world_after_mount w (kernel_ (FsNode_fs (node_ root))) k
              (Mount_Mount (next_mount_id_ k) flags root (FsNode_fs (node_ root))).
Proof.
  rewrite new_with_root_cases.
  destruct (MountFlags_intersects _ _); [discriminate|].
  destruct (kernels w !! _) as [k|]; [|discriminate].
  destruct (heap_avail (heap w)); [discriminate|].
  simpl. intros [= <- <-]. split; [reflexivity|]. split; [discriminate|]. exists k. auto.
Qed.

Lemma Mount_New_returned (what_ : WhatToMount) (flags : MountFlags)
    (w w' : World) (m : Mount) :
  Mount_New what_ flags w = Ret (Some m, w') →
  ∃ root, Mount_new_with_root root flags w = Ret (Some m, w').
Proof.
  unfold Mount_New, bind, FileSystem_root, ret.
  destruct (type what_); [|discriminate].
  destruct (what what_) as [fs|nn]; [|discriminate].
  destruct (OnceCell_get _) as [r|msg]; [|discriminate].
  intros Hm. exists r. exact Hm.
Qed.

End Construction.

(** ** One step of a run *)

Section Steps.
Context `{E : MountFlagsEnum}.

Lemma run_call_step (c : call) (w w' : World) (e : event) :
  run_call c w = Ret (e, w') → step w e w'.
Proof.
  destruct c as [root flags | what_ flags | kernel]; unfold run_call, bind, ret.
  - destruct (Mount_new_with_root root flags w) as [[h w1]|msg] eqn:Hn; [|discriminate].
    intros [= <- <-]. apply new_with_root_returned in Hn as (Hfl & Hheap & k & Hk & -> & ->).
    now apply step_mount.
  - destruct (Mount_New what_ flags w) as [[[m|] w1]|msg] eqn:Hn; [| |discriminate].
    + intros [= <- <-]. apply Mount_New_returned in Hn as [root Hn].
      apply new_with_root_returned in Hn as (Hfl & Hheap & k & Hk & [= ->] & ->).
      now apply step_mount.
    + intros [= <- <-]. unfold Mount_New, bind, FileSystem_root, ret in Hn.
      destruct (type what_).
      * destruct (what what_) as [fs|nn]; [|discriminate].
        destruct (OnceCell_get _) as [r|msg]; [|discriminate].
        apply new_with_root_returned in Hn as (_ & _ & k & _ & Hh & _). discriminate.
      * injection Hn as <-. apply step_no_mount.
  - rewrite anon_fs_cases.
    destruct (kernels w !! kernel) as [k|] eqn:Hk; [|discriminate].
    destruct (anon_fs_ k) as [fs|] eqn:Hfs.
    + intros [= <- <-]. now apply (step_anon_fs_hit w kernel k fs).
    + destruct (heap_avail (heap w)) as [|[|n]] eqn:Hheap; [discriminate..|].
      intros [= <- <-]. apply step_anon_fs_init; [exact Hk | exact Hfs | lia].
Qed.

Lemma run_cons_inv (c : call) (cs : list call) (w w' : World) (es : list event) :
  run (c :: cs) w = Ret (es, w') →
  ∃ e w1 es', run_call c w = Ret (e, w1) ∧ run cs w1 = Ret (es', w') ∧ es = e :: es'.
Proof.
  simpl. unfold bind at 1.
  destruct (run_call c w) as [[e w1]|msg]; [|discriminate].
  unfold bind, ret. destruct (run cs w1) as [[es' w2]|msg] eqn:Hr; [|discriminate].
  intros [= <- <-]. exists e, w1, es'. auto.
Qed.

Lemma run_steps (cs : list call) (w w' : World) (es : list event) :
  run cs w = Ret (es, w') → steps w es w'.
Proof.
  revert w es. induction cs as [|c cs IH]; intros w es.
  - intros [= <- <-]. constructor.
  - intros (e & w1 & es' & Hc & Hr & ->)%run_cons_inv.
    econstructor; [eapply run_call_step; exact Hc | apply IH; exact Hr].
Qed.

End Steps.

(** ** The construction contracts of new_with_root *)

Section Contracts.
Context `{E : MountFlagsEnum}.

Lemma step_avoids_stored_on_mount (w w' : World) (e : event) :
  step w e w' →
  (∀ m, e = ev_mount (Some m) → avoids_stored_on_mount m) ∧
  (map_Forall (λ _ m, avoids_stored_on_mount m) (mounts w) →
   map_Forall (λ _ m, avoids_stored_on_mount m) (mounts w')).
Proof.
  intros Hs. destruct Hs as [w root flags k Hfl Hk Hheap | w | w kernel k fs Hk Hfs | w kernel k Hk Hfs Hheap].
  - split.
    + intros m [= <-]. exact Hfl.
    + intros Hall. simpl. apply map_Forall_insert_2; [exact Hfl | exact Hall].
  - split; [intros m; discriminate | auto].
  - split; [intros m; discriminate | auto].
  - split; [intros m; discriminate | auto].
Qed.

Lemma steps_avoid_stored_on_mount (w w' : World) (es : list event) :
  steps w es w' →
  (∀ m, ev_mount (Some m) ∈ es → avoids_stored_on_mount m) ∧
  (map_Forall (λ _ m, avoids_stored_on_mount m) (mounts w) →
   map_Forall (λ _ m, avoids_stored_on_mount m) (mounts w')).
Proof.
  induction 1 as [w | w w1 w' e es Hs Hss [IHe IHm]].
  - split; [intros m Hin; inversion Hin | auto].
  - destruct (step_avoids_stored_on_mount _ _ _ Hs) as [He Hm].
    split.
    + intros m [Heq | Hin]%elem_of_cons; [apply He; symmetry; exact Heq | apply IHe; exact Hin].
    + intros Hall. apply IHm, Hm, Hall.
Qed.

(** C4. [Mount::new_with_root] asserts that [flags] does not intersect
    STORED_ON_MOUNT: flags that intersect it fail that assertion, flags that
    do not never fail it, and then (the kernel live, the heap not exhausted)
    the call returns a mount that stores the given flags, the given root and
    the root's filesystem.  Hence a mount that [new_with_root] returned, a
    mount that any run of the interface created, and a mount object of the
    store after such a run, all have stored flags that do not intersect
    STORED_ON_MOUNT. *)
Theorem new_with_root_flags_contract :
  (∀ root flags w,
     MountFlags_intersects flags (MountFlags_of STORED_ON_MOUNT) = true →
     Mount_new_with_root root flags w = Panic flags_assertion) ∧
  (∀ root flags w,
     MountFlags_intersects flags (MountFlags_of STORED_ON_MOUNT) = false →
     Mount_new_with_root root flags w ≠ Panic flags_assertion ∧
     ∀ k, kernels w !! kernel_ (FsNode_fs (node_ root)) = Some k →
          heap_avail (heap w) ≠ O →
          ∃ m w', Mount_new_with_root root flags w = Ret (Some m, w') ∧
                  flags_ m = flags ∧ root_ m = root ∧ fs_ m = FsNode_fs (node_ root)) ∧
  (∀ root flags w h w',
     Mount_new_with_root root flags w = Ret (h, w') →
     ∃ m, h = Some m ∧ flags_ m = flags ∧ root_ m = root ∧
          fs_ m = FsNode_fs (node_ root) ∧ avoids_stored_on_mount m) ∧
  (∀ cs w es w',
     run cs w = Ret (es, w') →
     (∀ m, ev_mount (Some m) ∈ es → avoids_stored_on_mount m) ∧
     (map_Forall (λ _ m, avoids_stored_on_mount m) (mounts w) →
      map_Forall (λ _ m, avoids_stored_on_mount m) (mounts w'))).
Proof.
  split; [|split; [|split]].
  - intros root flags w Hfl. rewrite new_with_root_cases, Hfl. reflexivity.
  - intros root flags w Hfl. rewrite new_with_root_cases, Hfl. split.
    + destruct (kernels w !! _) as [k|]; [|discriminate].
      destruct (heap_avail (heap w)); discriminate.
    + intros k Hk Hheap. rewrite Hk.
      destruct (heap_avail (heap w)); [contradiction|].
      eexists _, _. split; [reflexivity|]. simpl. auto.
  - intros root flags w h w' Hret.
    apply new_with_root_returned in Hret as (Hfl & _ & k & Hk & -> & ->).
    eexists. split; [reflexivity|]. simpl. repeat split. exact Hfl.
  - intros cs w es w' Hrun. apply steps_avoid_stored_on_mount.
    apply (run_steps cs). exact Hrun.
Qed.

(** C10. [Mount::new_with_root] takes the kernel from the weak pointer of
    the root's filesystem.  With the kernel live the "can't create mount
    without a kernel" assertion does not fail, and (the flags accepted, the
    heap not exhausted) the call returns the new mount.  With the kernel
    dropped the call never returns, neither a mount nor a null handle nor an
    error value: it stops, on that assertion once the flags were accepted. *)
Theorem new_with_root_needs_live_kernel (root : DirEntryHandle) (flags : MountFlags)
    (w : World) :
  (∀ k, kernels w !! kernel_ (FsNode_fs (node_ root)) = Some k →
     Mount_new_with_root root flags w ≠ Panic kernel_assertion ∧
     (MountFlags_intersects flags (MountFlags_of STORED_ON_MOUNT) = false →
      heap_avail (heap w) ≠ O →
      Mount_new_with_root root flags w =
        Ret (Some (Mount_Mount (next_mount_id_ k) flags root (FsNode_fs (node_ root))),
             world_after_mount w (kernel_ (FsNode_fs (node_ root))) k
               (Mount_Mount (next_mount_id_ k) flags root (FsNode_fs (node_ root)))))) ∧
  (kernels w !! kernel_ (FsNode_fs (node_ root)) = None →
     (∃ msg, Mount_new_with_root root flags w = Panic msg) ∧
     (MountFlags_intersects flags (MountFlags_of STORED_ON_MOUNT) = false →
      Mount_new_with_root root flags w = Panic kernel_assertion)).
Proof.
  rewrite new_with_root_cases. split.
  - intros k Hk. rewrite Hk. split.
    + destruct (MountFlags_intersects _ _); [discriminate|].
      destruct (heap_avail (heap w)); discriminate.
    + intros -> Hheap. destruct (heap_avail (heap w)); [contradiction|reflexivity].
  - intros Hk. rewrite Hk. split.
    + destruct (MountFlags_intersects _ _); eexists; reflexivity.
    + intros ->. reflexivity.
Qed.

End Contracts.

(** ** Mount ids *)


Lemma mounts_of_cons (k : addr) (e : event) (es : list event) :
  mounts_of k (e :: es) = mounts_of k [e] ++ mounts_of k es.
Proof.
  destruct e as [[m|]|kernel fs]; simpl; try reflexivity.
  destruct (decide (kernel_ (fs_ m) = k)); reflexivity.
Qed.

Section MountIds.
Context `{E : MountFlagsEnum}.




End MountIds.

(** ** The anonymous filesystem *)

Lemma anon_fs_initialized (kernel : addr) (w : World) (fs : FileSystemHandle) :
  anon_fs_cell w kernel = Some (Some fs) → anon_fs kernel w = Ret (fs, w).
Proof.
  unfold anon_fs_cell. rewrite anon_fs_cases.
  destruct (kernels w !! kernel) as [k|]; simpl; [|discriminate].
  intros [= ->]. reflexivity.
Qed.

Lemma anon_fs_idempotent (kernel : addr) (w : World) :
  (anon_fs kernel ;; anon_fs kernel) w = anon_fs kernel w.
Proof.
  unfold bind. rewrite (anon_fs_cases kernel w).
  destruct (kernels w !! kernel) as [k|] eqn:Hk; [|reflexivity].
  destruct (anon_fs_ k) as [fs|] eqn:Hfs.
  - apply anon_fs_initialized. unfold anon_fs_cell. rewrite Hk. simpl. rewrite Hfs. reflexivity.
  - destruct (heap_avail (heap w)) as [|[|n]]; [reflexivity..|].
    apply anon_fs_initialized. unfold anon_fs_cell; simpl.
    rewrite lookup_insert_eq. reflexivity.
Qed.

Lemma anon_fs_of_cons (k : addr) (e : event) (es : list event) :
  anon_fs_of k (e :: es) = anon_fs_of k [e] ++ anon_fs_of k es.
Proof.
  destruct e as [h|kernel fs]; simpl; try reflexivity.
  destruct (decide (kernel = k)); reflexivity.
Qed.

Section AnonFs.
Context `{E : MountFlagsEnum}.

(** A step either is not an [anon_fs(k)] call, or it is one and leaves
    the cell of [k] holding what it returned. *)
Lemma step_anon_fs_fills (w w' : World) (e : event) (k : addr) :
  step w e w' →
  anon_fs_of k [e] = [] ∨
  ∃ fs, anon_fs_of k [e] = [fs] ∧ anon_fs_cell w' k = Some (Some fs).
Proof.
  unfold anon_fs_cell.
  intros Hs.
  destruct Hs as [w root flags k0 Hfl Hk Hheap | w | w kernel k0 fs Hk Hfs | w kernel k0 Hk Hfs Hheap];
    simpl; try (left; reflexivity).
  - destruct (decide (kernel = k)) as [<-|Hne]; [right | left; reflexivity].
    exists fs. split; [reflexivity|]. rewrite Hk. simpl. rewrite Hfs. reflexivity.
  - destruct (decide (kernel = k)) as [<-|Hne]; [right | left; reflexivity].
    eexists. split; [reflexivity|]. rewrite lookup_insert_eq. reflexivity.
Qed.

(** Once the cell of [k] is filled, no step empties or refills it, and an
    [anon_fs(k)] step returns its content and leaves the store alone. *)
Lemma step_anon_fs_kept (w w' : World) (e : event) (k : addr) (fs : FileSystemHandle) :
  step w e w' →
  anon_fs_cell w k = Some (Some fs) →
  anon_fs_cell w' k = Some (Some fs) ∧
  (anon_fs_of k [e] = [] ∨ (anon_fs_of k [e] = [fs] ∧ w' = w)).
Proof.
  unfold anon_fs_cell.
  intros Hs Hc.
  destruct Hs as [w root flags k0 Hfl Hk Hheap | w | w kernel k0 fs0 Hk Hfs | w kernel k0 Hk Hfs Hheap];
    simpl.
  - split; [|left; reflexivity].
    destruct (decide (kernel_ (FsNode_fs (node_ root)) = k)) as [Heq|Hne].
    + rewrite Heq in Hk. rewrite Hk in Hc. rewrite Heq, lookup_insert_eq. exact Hc.
    + rewrite lookup_insert_ne by exact Hne. exact Hc.
  - split; [exact Hc | left; reflexivity].
  - split; [exact Hc|].
    destruct (decide (kernel = k)) as [Heq|Hne]; [right | left; reflexivity].
    rewrite Heq in Hk. rewrite Hk in Hc. simpl in Hc. rewrite Hfs in Hc.
    injection Hc as ->. auto.
  - destruct (decide (kernel = k)) as [Heq|Hne].
    + rewrite Heq in Hk. rewrite Hk in Hc. simpl in Hc. congruence.
    + split; [|left; reflexivity]. rewrite lookup_insert_ne by exact Hne. exact Hc.
Qed.

Lemma steps_anon_fs_kept (w w' : World) (es : list event) (k : addr) (fs : FileSystemHandle) :
  steps w es w' →
  anon_fs_cell w k = Some (Some fs) →
  anon_fs_cell w' k = Some (Some fs) ∧ ∀ f, f ∈ anon_fs_of k es → f = fs.
Proof.
  induction 1 as [w | w w1 w' e es Hs Hss IH]; intros Hc.
  - split; [exact Hc | intros f Hin; inversion Hin].
  - destruct (step_anon_fs_kept _ _ _ k fs Hs Hc) as [Hc1 He].
    destruct (IH Hc1) as [Hc' Hes]. split; [exact Hc'|].
    intros f. rewrite anon_fs_of_cons, elem_of_app.
    intros [Hin | Hin]; [|apply Hes, Hin].
    destruct He as [He | [He _]]; rewrite He in Hin.
    + inversion Hin.
    + apply list_elem_of_singleton in Hin. exact Hin.
Qed.

Lemma steps_anon_fs_same (w w' : World) (es : list event) (k : addr) :
  steps w es w' →
  ∀ f, f ∈ anon_fs_of k es →
       anon_fs_cell w' k = Some (Some f) ∧ ∀ f', f' ∈ anon_fs_of k es → f' = f.
Proof.
  induction 1 as [w | w w1 w' e es Hs Hss IH]; intros f.
  - intros Hin. inversion Hin.
  - rewrite anon_fs_of_cons.
    destruct (step_anon_fs_fills _ _ _ k Hs) as [-> | (fs & -> & Hc1)]; simpl.
    + exact (IH f).
    + destruct (steps_anon_fs_kept _ _ _ k fs Hss Hc1) as [Hc' Hes].
      assert (Hall : ∀ f', f' ∈ fs :: anon_fs_of k es → f' = fs).
      { intros f' [-> | Hin]%elem_of_cons; [reflexivity | apply Hes, Hin]. }
      intros Hin. rewrite (Hall f Hin). split; [exact Hc' | exact Hall].
Qed.

(** C8. [anon_fs(kernel)] is a lazy singleton of the kernel, on one thread.
    On a live kernel with an empty cell (and room for the two objects) the
    first call builds a new FileSystem for that kernel, stores it in the
    cell and returns it.  On a filled cell a call returns the stored handle
    and leaves the whole store as it was, so nothing is built.  Calling
    twice is calling once.  And in any run of the interface every
    [anon_fs(kernel)] call returns the same handle, which a further call
    still returns without touching the store. *)
Theorem anon_fs_lazy_singleton (kernel : addr) :
  (∀ w k,
     kernels w !! kernel = Some k → anon_fs_ k = None → (2 ≤ heap_avail (heap w))%nat →
     ∃ fs w1,
       anon_fs kernel w = Ret (fs, w1) ∧
       anon_fs_cell w1 kernel = Some (Some fs) ∧
       kernel_ fs = kernel ∧ fs_cache_mode fs = Uncached ∧
       (next_addr (heap w) ≤ fs_addr fs < next_addr (heap w1))%nat) ∧
  (∀ w fs,
     anon_fs_cell w kernel = Some (Some fs) → anon_fs kernel w = Ret (fs, w)) ∧
  (∀ w, (anon_fs kernel ;; anon_fs kernel) w = anon_fs kernel w) ∧
  (∀ cs w es w',
     run cs w = Ret (es, w') →
     ∀ f, f ∈ anon_fs_of kernel es →
          (∀ f', f' ∈ anon_fs_of kernel es → f' = f) ∧
          anon_fs kernel w' = Ret (f, w')).
Proof.
  split; [|split; [|split]].
  - intros w k Hk Hfs Hheap. rewrite anon_fs_cases, Hk, Hfs.
    destruct (heap_avail (heap w)) as [|[|n]]; [lia..|].
    eexists _, _. split; [reflexivity|].
    unfold anon_fs_cell; simpl. rewrite lookup_insert_eq. simpl.
    repeat split; lia.
  - intros w fs. apply anon_fs_initialized.
  - apply anon_fs_idempotent.
  - intros cs w es w' Hrun f Hin.
    destruct (steps_anon_fs_same w w' es kernel (run_steps cs _ _ _ Hrun) f Hin) as [Hc Hall].
    split; [exact Hall | apply anon_fs_initialized, Hc].
Qed.

End AnonFs.

(** ** The theorems at work on the concrete machine *)

Lemma run_calls0 : @run linux_uapi calls0 world0 = Ret (events0, world1).
Proof. vm_compute. reflexivity. Qed.

Lemma new_with_root_flags_contract_witness :
  @Mount_new_with_root linux_uapi root10 (MountFlags_of 1) world0 = Panic flags_assertion ∧
  (∃ m w', @Mount_new_with_root linux_uapi root10 no_flags world0 = Ret (Some m, w') ∧
           flags_ m = no_flags ∧ root_ m = root10 ∧ fs_ m = fs10) ∧
  (∀ m, ev_mount (Some m) ∈ events0 → @avoids_stored_on_mount linux_uapi m).
Proof.
  destruct (@new_with_root_flags_contract linux_uapi) as (Hfire & Hpass & _ & Hruns).
  split; [|split].
  - apply Hfire. reflexivity.
  - destruct (Hpass root10 no_flags world0) as [_ Hret]; [reflexivity|].
    apply (Hret {| next_mount_id_ := 1; anon_fs_ := None |}); [reflexivity | simpl; lia].
  - apply (Hruns calls0 world0 events0 world1 run_calls0).
Defined.

Lemma new_with_root_needs_live_kernel_witness :
  (∃ m w', @Mount_new_with_root linux_uapi root10 no_flags world0 = Ret (Some m, w')) ∧
  @Mount_new_with_root linux_uapi root10 no_flags world_no_kernel = Panic kernel_assertion.
Proof.
  split.
  - destruct (@new_with_root_needs_live_kernel linux_uapi root10 no_flags world0) as [Hlive _].
    destruct (Hlive {| next_mount_id_ := 1; anon_fs_ := None |}) as [_ Hret]; [reflexivity|].
    eexists _, _. apply Hret; [reflexivity | simpl; lia].
  - destruct (@new_with_root_needs_live_kernel linux_uapi root10 no_flags world_no_kernel)
      as [_ Hdead].
    apply Hdead; reflexivity.
Defined.

Lemma Mount_New_Fs_is_new_with_root_witness :
  @Mount_New linux_uapi {| type := Fs; what := inl fs10 |} no_flags world0 =
  @Mount_new_with_root linux_uapi root10 no_flags world0.
Proof.
  apply (@Mount_New_Fs_is_new_with_root linux_uapi fs10 no_flags world0). reflexivity.
Defined.



Lemma anon_fs_lazy_singleton_witness :
  (∃ fs w1, anon_fs 1 world0 = Ret (fs, w1) ∧ anon_fs 1 w1 = Ret (fs, w1)) ∧
  (∃ f, anon_fs_of 1 events0 = [f; f] ∧ anon_fs 1 world1 = Ret (f, world1)).
Proof.
  destruct (@anon_fs_lazy_singleton linux_uapi 1) as (Hfirst & Hlater & _ & Hruns).
  split.
  - destruct (Hfirst world0 {| next_mount_id_ := 1; anon_fs_ := None |})
      as (fs & w1 & Hret & Hcell & _); [reflexivity | reflexivity | simpl; lia |].
    exists fs, w1. split; [exact Hret | apply Hlater, Hcell].
  - eexists. split; [vm_compute; reflexivity|].
    apply (Hruns calls0 world0 events0 world1 run_calls0).
    vm_compute. apply list_elem_of_here.
Defined.

(** * The directory-entry cache: vfs/dir_entry.h

    The member functions that dir_entry.h defines in the class body:
    [DirEntry::is_reserved_name], [create_entry], [get_or_create_entry],
    [create_entry_internal], [get_or_create_child] and
    [DirEntryLockedChildren::get_or_create_child].  They are written over
    functions that the header only declares or that other classes own (the
    backing node, the children tree, the filesystem hooks, the entry's
    [DirEntryOps]); those are the fields of [DirEntryEnv], and the state
    they act on is its field [St].  The code runs on one thread here:
    taking the read or write lock on [children_] ([lock_children()]) is
    not a step of its own. *)

From Stdlib Require Import Ascii.

(** ** State passing over an arbitrary state *)

Definition MS (S A : Type) : Type := S → outcome (A * S).

Definition ret_s {S A} (a : A) : MS S A := fun s => Ret (a, s).

Definition bind_s {S A B} (c : MS S A) (k : A → MS S B) : MS S B :=
  fun s => match c s with
           | Ret (a, s') => k a s'
           | Panic msg => Panic msg
           end.

Definition panic_s {S A} (msg : string) : MS S A := fun _ => Panic msg.

(** Reading the state without changing it. *)
Definition read_s {S A} (f : S → A) : MS S A := fun s => Ret (f s, s).

Notation "'let+' x ':=' c 'in' k" := (bind_s c (fun x => k))
  (at level 10, x name, c at level 100, k at level 200).
Notation "c ';+' k" := (bind_s c (fun _ => k))
  (at level 100, k at level 200, right associativity).

Definition ASSERT_s {S} (cond : bool) (msg : string) : MS S unit :=
  if cond then ret_s tt else panic_s msg.

(** ** Names and error numbers *)

Definition FsStr : Type := string.
Definition FsString : Type := string.

(** The Linux error numbers that dir_entry.h names. *)
Definition ENOENT : Z := 2%Z.
Definition EEXIST : Z := 17%Z.
Definition ENOTDIR : Z := 20%Z.
Definition EINVAL : Z := 22%Z.
Definition ENAMETOOLONG : Z := 36%Z.

(** [DirEntry::is_reserved_name(name)] *)
Definition DirEntry_is_reserved_name (name : FsStr) : bool :=
  String.eqb name "" || String.eqb name "." || String.eqb name "..".

(** Modelled from the spec: [starnix::contains(name, SEPARATOR)] is not
    part of the sources; "name contains no path separator" is its
    negation. *)
Definition starnix_contains (name : FsStr) (c : Ascii.ascii) : bool :=
  existsb (Ascii.eqb c) (list_ascii_of_string name).

(** ** What the header leaves to other translation units *)

Class DirEntryEnv : Type := {
  St : Type;
  CurrentTask : Type;
  (* util::WeakPtr<DirEntry>, the element type of the children tree *)
  WeakDirEntry : Type;
  (* <limits.h> and vfs/path.h *)
  NAME_MAX : nat;
  SEPARATOR : Ascii.ascii;
  (* node_->is_dir() *)
  FsNode_is_dir : St → FsNode → bool;
  (* (node->info()->mode & FileMode::IFMT) != FileMode::EMPTY *)
  FsNode_mode_populated : St → FsNode → bool;
  (* node_->lookup(current_task, mount, name) *)
  FsNode_lookup : FsNode → CurrentTask → MountInfo → FsStr → MS St (fit_result Errno FsNode);
  (* DirEntry::New(node, parent, local_name) *)
  DirEntry_New : FsNode → option DirEntryHandle → FsString → MS St DirEntryHandle;
  (* children_->find(name): the element under [name], or end() *)
  children_find : St → DirEntryHandle → FsStr → option WeakDirEntry;
  (* it.CopyPointer().Lock() *)
  WeakDirEntry_Lock : St → WeakDirEntry → option DirEntryHandle;
  (* children_->insert(util::WeakPtr(child.get())) on the children of the first entry *)
  children_insert : DirEntryHandle → DirEntryHandle → MS St unit;
  (* fs->did_access_dir_entry(entry), fs->did_create_dir_entry(entry), fs->purge_old_entries() *)
  did_access_dir_entry : FileSystemHandle → DirEntryHandle → MS St unit;
  did_create_dir_entry : FileSystemHandle → DirEntryHandle → MS St unit;
  purge_old_entries : FileSystemHandle → MS St unit;
  (* child->ops_->revalidate(current_task, *child) *)
  revalidate : DirEntryHandle → CurrentTask → MS St (fit_result Errno bool);
  (* this->internal_remove_child(child) *)
  internal_remove_child : DirEntryHandle → DirEntryHandle → MS St unit;
}.

(** [Created] / [Existed<CreateFn>] in a [CreationResult<CreateFn>]. *)
Inductive CreationResult (CreateFn : Type) : Type :=
| Created
| Existed (create_fn : CreateFn).
Arguments Created {CreateFn}.
Arguments Existed {CreateFn} create_fn.

Definition reserved_name_assertion : string := "ASSERT(!DirEntry::is_reserved_name(name))".
Definition file_mode_assertion : string :=
  "FsNode initialization did not populate the FileMode in FsNodeInfo.".
(** [fit::result::take_error()] on a result that holds a value. *)
Definition take_error_abort : string := "fit::result::take_error() on a value".

Section DirEntryCode.
Context `{Env : DirEntryEnv}.

(** The creation callback: [fit::result<Errno, FsNodeHandle>(const
    FsNodeHandle&, const MountInfo&, const FsStr&)]. *)
Definition CreateNodeFn : Type :=
  FsNode → MountInfo → FsStr → MS St (fit_result Errno FsNode).

(** The [find_or_create_node] lambda of
    [DirEntryLockedChildren::get_or_create_child]. *)
Definition find_or_create_node (entry_ : DirEntryHandle) (current_task : CurrentTask)
    (mount : MountInfo) (name : FsStr) (create_fn : CreateNodeFn)
    : MS St (fit_result Errno (FsNode * CreationResult CreateNodeFn)) :=
  (* Before creating the child, check for existence. *)
  let+ lookup_result := FsNode_lookup (node_ entry_) current_task mount name in
  match lookup_result with
  | fit_ok node => ret_s (fit_ok (node, Existed create_fn))
  | fit_error e =>
      if (error_code e =? ENOENT)%Z then
        let+ create_fn_result := create_fn (node_ entry_) mount name in
        match create_fn_result with
        | fit_error e' => ret_s (fit_error e')
        | fit_ok node => ret_s (fit_ok (node, Created))
        end
      else ret_s (fit_error e)
  end.

(** The [create_child] lambda of
    [DirEntryLockedChildren::get_or_create_child]. *)
Definition create_child (entry_ : DirEntryHandle) (current_task : CurrentTask)
    (mount : MountInfo) (name : FsStr) (create_fn : CreateNodeFn)
    : MS St (fit_result Errno (DirEntryHandle * CreationResult CreateNodeFn)) :=
  let+ r := find_or_create_node entry_ current_task mount name create_fn in
  match r with
  | fit_error e => ret_s (fit_error e)
  | fit_ok (node, create_result) =>
      let+ populated := read_s (fun s => FsNode_mode_populated s node) in
      ASSERT_s populated file_mode_assertion ;+
      let+ entry := DirEntry_New node (Some entry_) name in
      ret_s (fit_ok (entry, create_result))
  end.

(** [create_child] followed by the insertion into the children tree: the
    Vacant branch, and the Occupied branch after a failed upgrade. *)
Definition create_and_insert (entry_ : DirEntryHandle) (current_task : CurrentTask)
    (mount : MountInfo) (name : FsStr) (create_fn : CreateNodeFn)
    : MS St (fit_result Errno (DirEntryHandle * CreationResult CreateNodeFn)) :=
  let+ result := create_child entry_ current_task mount name create_fn in
  match result with
  | fit_error e => ret_s (fit_error e)
  | fit_ok (child, create_result) =>
      children_insert entry_ child ;+
      ret_s (fit_ok (child, create_result))
  end.

(** [DirEntryLockedChildren::get_or_create_child], on the children of
    [entry_] under the write lock. *)
Definition DirEntryLockedChildren_get_or_create_child (entry_ : DirEntryHandle)
    (current_task : CurrentTask) (mount : MountInfo) (name : FsStr)
    (create_fn : CreateNodeFn)
    : MS St (fit_result Errno (DirEntryHandle * CreationResult CreateNodeFn)) :=
  let+ it := read_s (fun s => children_find s entry_ name) in
  let+ result :=
    match it with
    | None =>
        (* Vacant *)
        create_and_insert entry_ current_task mount name create_fn
    | Some weak =>
        (* Occupied *)
        let+ child := read_s (fun s => WeakDirEntry_Lock s weak) in
        match child with
        | Some child =>
            did_access_dir_entry (FsNode_fs (node_ child)) child ;+
            ret_s (fit_ok (child, Existed create_fn))
        | None => create_and_insert entry_ current_task mount name create_fn
        end
    end in
  match result with
  | fit_error e => ret_s (fit_error e)
  | fit_ok (child, create_result) =>
      did_create_dir_entry (FsNode_fs (node_ child)) child ;+
      ret_s (fit_ok (child, create_result))
  end.

(** [lock_children().get_or_create_child(...)] followed by
    [purge_old_entries()], as [DirEntry::get_or_create_child] does twice. *)
Definition locked_create_then_purge (this : DirEntryHandle) (current_task : CurrentTask)
    (mount : MountInfo) (name : FsStr) (create_fn : CreateNodeFn)
    : MS St (fit_result Errno (DirEntryHandle * CreationResult CreateNodeFn)) :=
  let+ result :=
    DirEntryLockedChildren_get_or_create_child this current_task mount name create_fn in
  match result with
  | fit_error e => ret_s (fit_error e)
  | fit_ok (c, cr) =>
      purge_old_entries (FsNode_fs (node_ c)) ;+
      ret_s (fit_ok (c, cr))
  end.

(** [DirEntry::get_or_create_child] *)
Definition DirEntry_get_or_create_child (this : DirEntryHandle) (current_task : CurrentTask)
    (mount : MountInfo) (name : FsStr) (create_fn : CreateNodeFn)
    : MS St (fit_result Errno (DirEntryHandle * bool)) :=
  ASSERT_s (negb (DirEntry_is_reserved_name name)) reserved_name_assertion ;+
  (* Only directories can have children. *)
  let+ is_dir := read_s (fun s => FsNode_is_dir s (node_ this)) in
  if negb is_dir then ret_s (fit_error (errno ENOTDIR)) else
  (* Check if the child is already in children. *)
  let+ optional_child :=
    read_s (fun s => match children_find s this name with
                     | Some weak => WeakDirEntry_Lock s weak
                     | None => None
                     end) in
  let+ result :=
    match optional_child with
    | Some c =>
        did_access_dir_entry (FsNode_fs (node_ c)) c ;+
        ret_s (fit_ok (c, Existed create_fn))
    | None => locked_create_then_purge this current_task mount name create_fn
    end in
  match result with
  | fit_error e => ret_s (fit_error e)
  | fit_ok (child, cr) =>
      let+ new_result :=
        match cr with
        | Created => ret_s (fit_ok (child, false))
        | Existed e_create_fn =>
            let+ revalidate_result := revalidate child current_task in
            match revalidate_result with
            | fit_error e => ret_s (fit_error e)
            | fit_ok true => ret_s (fit_ok (child, true))
            | fit_ok false =>
                internal_remove_child this child ;+
                let+ result2 :=
                  locked_create_then_purge this current_task mount name e_create_fn in
                match result2 with
                | fit_error e => ret_s (fit_error e)
                | fit_ok (c, cr2) =>
                    ret_s (fit_ok (c, match cr2 with
                                      | Created => false
                                      | Existed _ => true
                                      end))
                end
            end
        end in
      match new_result with
      | fit_error _ =>
          (* return result.take_error();  with [result] holding a value *)
          panic_s take_error_abort
      | fit_ok (child2, exists_) => ret_s (fit_ok (child2, exists_))
      end
  end.

(** [DirEntry::create_entry_internal] *)
Definition DirEntry_create_entry_internal (this : DirEntryHandle)
    (current_task : CurrentTask) (mount : MountInfo) (name : FsStr) (fn : CreateNodeFn)
    : MS St (fit_result Errno (DirEntryHandle * bool)) :=
  if DirEntry_is_reserved_name name then ret_s (fit_error (errno EEXIST)) else
  if (NAME_MAX <? String.length name)%nat then ret_s (fit_error (errno ENAMETOOLONG)) else
  if starnix_contains name SEPARATOR then ret_s (fit_error (errno EINVAL)) else
  let+ result := DirEntry_get_or_create_child this current_task mount name fn in
  match result with
  | fit_error e => ret_s (fit_error e)
  | fit_ok (entry, exists_) => ret_s (fit_ok (entry, exists_))
  end.

(** [DirEntry::create_entry] *)
Definition DirEntry_create_entry (this : DirEntryHandle) (current_task : CurrentTask)
    (mount : MountInfo) (name : FsStr) (fn : CreateNodeFn)
    : MS St (fit_result Errno DirEntryHandle) :=
  let+ result := DirEntry_create_entry_internal this current_task mount name fn in
  match result with
  | fit_error e => ret_s (fit_error e)
  | fit_ok (entry, exists_) =>
      if exists_ then ret_s (fit_error (errno EEXIST)) else ret_s (fit_ok entry)
  end.

(** [DirEntry::get_or_create_entry] *)
Definition DirEntry_get_or_create_entry (this : DirEntryHandle) (current_task : CurrentTask)
    (mount : MountInfo) (name : FsStr) (fn : CreateNodeFn)
    : MS St (fit_result Errno DirEntryHandle) :=
  let+ result := DirEntry_create_entry_internal this current_task mount name fn in
  match result with
  | fit_error e => ret_s (fit_error e)
  | fit_ok (entry, _exists) => ret_s (fit_ok entry)
  end.

End DirEntryCode.

(** ** Vocabulary for the directory-entry cache *)

(** The child of [this] under [name] that the children tree still holds
    alive in state [s]: the element found, upgraded. *)
Definition cached_child `{Env : DirEntryEnv} (s : St) (this : DirEntryHandle) (name : FsStr)
    : option DirEntryHandle :=
  match children_find s this name with
  | Some weak => WeakDirEntry_Lock s weak
  | None => None
  end.

(** A name that passes the three tests of [create_entry_internal]. *)
Definition valid_name `{Env : DirEntryEnv} (name : FsStr) : Prop :=
  DirEntry_is_reserved_name name = false ∧
  (String.length name ≤ NAME_MAX)%nat ∧
  starnix_contains name SEPARATOR = false.

(** How [create_entry] and [get_or_create_entry] each report what
    [get_or_create_child] returned. *)
Definition as_create_entry (r : fit_result Errno (DirEntryHandle * bool))
    : fit_result Errno DirEntryHandle :=
  match r with
  | fit_error e => fit_error e
  | fit_ok (entry, true) => fit_error (errno EEXIST)
  | fit_ok (entry, false) => fit_ok entry
  end.

Definition as_get_or_create_entry (r : fit_result Errno (DirEntryHandle * bool))
    : fit_result Errno DirEntryHandle :=
  match r with
  | fit_error e => fit_error e
  | fit_ok (entry, _) => fit_ok entry
  end.

(** The outcome of [c], its returned value passed through [f]. *)
Definition map_returned {S A B} (f : A → B) (o : outcome (A * S)) : outcome (B * S) :=
  match o with
  | Ret (a, s) => Ret (f a, s)
  | Panic msg => Panic msg
  end.

(** ** Properties of the directory-entry cache *)

Ltac run_ms :=
  repeat first
    [ progress (unfold bind_s, ret_s, read_s, ASSERT_s, panic_s; simpl)
    | match goal with
      | H : ?x = _ |- context [?x] => rewrite H
      end ].

Lemma is_reserved_name_iff (name : FsStr) :
  DirEntry_is_reserved_name name = true ↔ name = "" ∨ name = "." ∨ name = "..".
Proof.
  unfold DirEntry_is_reserved_name. rewrite !orb_true_iff, !String.eqb_eq. tauto.
Qed.

Section DirEntryFacts.
Context `{Env : DirEntryEnv}.
Implicit Types (this child entry : DirEntryHandle) (ct : CurrentTask) (mount : MountInfo).
Implicit Types (name : FsStr) (fn : CreateNodeFn) (s : St).

(** With a valid name [create_entry_internal] is [get_or_create_child]. *)
Lemma create_entry_internal_valid this ct mount name fn s :
  valid_name name →
  DirEntry_create_entry_internal this ct mount name fn s =
    DirEntry_get_or_create_child this ct mount name fn s.
Proof.
  intros (Hres & Hlen & Hsep). unfold DirEntry_create_entry_internal.
  rewrite Hres, Hsep.
  destruct (Nat.ltb_spec NAME_MAX (String.length name)) as [Hlt|_]; [lia|].
  unfold bind_s.
  destruct (DirEntry_get_or_create_child this ct mount name fn s) as [[[[entry ex]|e] s']|msg];
    reflexivity.
Qed.

Lemma create_entry_as_internal this ct mount name fn s :
  DirEntry_create_entry this ct mount name fn s =
    map_returned as_create_entry (DirEntry_create_entry_internal this ct mount name fn s).
Proof.
  unfold DirEntry_create_entry, bind_s, map_returned.
  destruct (DirEntry_create_entry_internal this ct mount name fn s)
    as [[[[entry [|]]|e] s']|msg]; reflexivity.
Qed.

Lemma get_or_create_entry_as_internal this ct mount name fn s :
  DirEntry_get_or_create_entry this ct mount name fn s =
    map_returned as_get_or_create_entry
      (DirEntry_create_entry_internal this ct mount name fn s).
Proof.
  unfold DirEntry_get_or_create_entry, bind_s, map_returned.
  destruct (DirEntry_create_entry_internal this ct mount name fn s)
    as [[[[entry ex]|e] s']|msg]; reflexivity.
Qed.

End DirEntryFacts.

Section DirEntryPaths.
Context `{Env : DirEntryEnv}.
Implicit Types (this child entry : DirEntryHandle) (ct : CurrentTask) (mount : MountInfo).
Implicit Types (name : FsStr) (fn : CreateNodeFn) (s : St) (node : FsNode).

Lemma locked_create_then_purge_creates this ct mount name fn s node
    (cr : CreationResult CreateNodeFn) entry s1 s2 s3 s4 s5 :
  cached_child s this name = None →
  find_or_create_node this ct mount name fn s = Ret (fit_ok (node, cr), s1) →
  FsNode_mode_populated s1 node = true →
  DirEntry_New node (Some this) name s1 = Ret (entry, s2) →
  children_insert this entry s2 = Ret (tt, s3) →
  did_create_dir_entry (FsNode_fs (node_ entry)) entry s3 = Ret (tt, s4) →
  purge_old_entries (FsNode_fs (node_ entry)) s4 = Ret (tt, s5) →
  locked_create_then_purge this ct mount name fn s = Ret (fit_ok (entry, cr), s5).
Proof.
  unfold cached_child. intros Hc Hnode Hpop Hnew Hins Hcre Hpurge.
  unfold locked_create_then_purge, DirEntryLockedChildren_get_or_create_child,
    create_and_insert, create_child.
  destruct (children_find s this name) as [weak|] eqn:Hfind; run_ms; reflexivity.
Qed.

Lemma locked_create_then_purge_fails this ct mount name fn s (e : Errno) s1 :
  cached_child s this name = None →
  find_or_create_node this ct mount name fn s = Ret (fit_error e, s1) →
  locked_create_then_purge this ct mount name fn s = Ret (fit_error e, s1).
Proof.
  unfold cached_child. intros Hc Hnode.
  unfold locked_create_then_purge, DirEntryLockedChildren_get_or_create_child,
    create_and_insert, create_child.
  destruct (children_find s this name) as [weak|] eqn:Hfind; run_ms; reflexivity.
Qed.

Lemma locked_create_then_purge_unpopulated this ct mount name fn s node
    (cr : CreationResult CreateNodeFn) s1 :
  cached_child s this name = None →
  find_or_create_node this ct mount name fn s = Ret (fit_ok (node, cr), s1) →
  FsNode_mode_populated s1 node = false →
  locked_create_then_purge this ct mount name fn s = Panic file_mode_assertion.
Proof.
  unfold cached_child. intros Hc Hnode Hpop.
  unfold locked_create_then_purge, DirEntryLockedChildren_get_or_create_child,
    create_and_insert, create_child.
  destruct (children_find s this name) as [weak|] eqn:Hfind; run_ms; reflexivity.
Qed.

(** The first part of [get_or_create_child] when no live child is cached. *)
Lemma get_or_create_child_slow this ct mount name fn s :
  DirEntry_is_reserved_name name = false →
  FsNode_is_dir s (node_ this) = true →
  cached_child s this name = None →
  DirEntry_get_or_create_child this ct mount name fn s =
    (let+ result := locked_create_then_purge this ct mount name fn in
     match result with
     | fit_error e => ret_s (fit_error e)
     | fit_ok (child, Created) => ret_s (fit_ok (child, false))
     | fit_ok (child, Existed e_create_fn) =>
         let+ revalidate_result := revalidate child ct in
         match revalidate_result with
         | fit_error e => panic_s take_error_abort
         | fit_ok true => ret_s (fit_ok (child, true))
         | fit_ok false =>
             internal_remove_child this child ;+
             let+ result2 := locked_create_then_purge this ct mount name e_create_fn in
             match result2 with
             | fit_error e => panic_s take_error_abort
             | fit_ok (c, Created) => ret_s (fit_ok (c, false))
             | fit_ok (c, Existed _) => ret_s (fit_ok (c, true))
             end
         end
     end) s.
Proof.
  intros Hres Hdir Hc. unfold DirEntry_get_or_create_child, cached_child in *.
  run_ms.
  destruct (locked_create_then_purge this ct mount name fn s)
    as [[[[child [|f]]|e] s1]|msg]; simpl; try reflexivity.
  destruct (revalidate child ct s1) as [[[[|]|e] s2]|msg]; simpl; try reflexivity.
  destruct (internal_remove_child this child s2) as [[[] s3]|msg]; simpl; try reflexivity.
  destruct (locked_create_then_purge this ct mount name f s3)
    as [[[[c [|f']]|e] s4]|msg]; reflexivity.
Qed.

End DirEntryPaths.

Section DirEntryTheorems.
Context `{Env : DirEntryEnv}.
Implicit Types (this child entry : DirEntryHandle) (ct : CurrentTask) (mount : MountInfo).
Implicit Types (name : FsStr) (fn : CreateNodeFn) (s : St) (node : FsNode).

(** X1. [create_entry] and [get_or_create_entry] refuse a bad name before
    anything else happens: EEXIST for the empty name, "." and "..", then
    ENAMETOOLONG for a name longer than NAME_MAX, then EINVAL for a name
    that contains the separator.  The state is the one before the call,
    whatever the entry, the creation function and the rest of the kernel. *)
Theorem create_entry_rejects_bad_names this ct mount name fn s :
  (name = "" ∨ name = "." ∨ name = ".." →
     DirEntry_create_entry this ct mount name fn s = Ret (fit_error (errno EEXIST), s) ∧
     DirEntry_get_or_create_entry this ct mount name fn s
       = Ret (fit_error (errno EEXIST), s)) ∧
  (DirEntry_is_reserved_name name = false → (NAME_MAX < String.length name)%nat →
     DirEntry_create_entry this ct mount name fn s
       = Ret (fit_error (errno ENAMETOOLONG), s) ∧
     DirEntry_get_or_create_entry this ct mount name fn s
       = Ret (fit_error (errno ENAMETOOLONG), s)) ∧
  (DirEntry_is_reserved_name name = false → (String.length name ≤ NAME_MAX)%nat →
     starnix_contains name SEPARATOR = true →
     DirEntry_create_entry this ct mount name fn s = Ret (fit_error (errno EINVAL), s) ∧
     DirEntry_get_or_create_entry this ct mount name fn s
       = Ret (fit_error (errno EINVAL), s)).
Proof.
  rewrite create_entry_as_internal, get_or_create_entry_as_internal.
  unfold DirEntry_create_entry_internal.
  split; [|split].
  - intros Hres%is_reserved_name_iff. rewrite Hres. split; reflexivity.
  - intros Hres Hlen. rewrite Hres.
    destruct (Nat.ltb_spec NAME_MAX (String.length name)) as [_|Hle]; [|lia].
    split; reflexivity.
  - intros Hres Hlen Hsep. rewrite Hres, Hsep.
    destruct (Nat.ltb_spec NAME_MAX (String.length name)) as [Hlt|_]; [lia|].
    split; reflexivity.
Qed.

(** X2. [get_or_create_child] itself asserts that the name is not
    reserved, and answers ENOTDIR, leaving the state alone, when the
    entry's node is not a directory.  Reached through [create_entry] or
    [get_or_create_entry] the assertion cannot fail: on a non-directory
    they answer EEXIST for a reserved name and ENOTDIR for a valid one. *)
Theorem get_or_create_child_needs_directory this ct mount name fn s :
  (DirEntry_is_reserved_name name = true →
     DirEntry_get_or_create_child this ct mount name fn s = Panic reserved_name_assertion) ∧
  (DirEntry_is_reserved_name name = false → FsNode_is_dir s (node_ this) = false →
     DirEntry_get_or_create_child this ct mount name fn s
       = Ret (fit_error (errno ENOTDIR), s)) ∧
  (FsNode_is_dir s (node_ this) = false →
     (DirEntry_is_reserved_name name = true →
        DirEntry_create_entry this ct mount name fn s = Ret (fit_error (errno EEXIST), s)) ∧
     (valid_name name →
        DirEntry_create_entry this ct mount name fn s = Ret (fit_error (errno ENOTDIR), s) ∧
        DirEntry_get_or_create_entry this ct mount name fn s
          = Ret (fit_error (errno ENOTDIR), s))).
Proof.
  assert (Hnotdir : DirEntry_is_reserved_name name = false →
            FsNode_is_dir s (node_ this) = false →
            DirEntry_get_or_create_child this ct mount name fn s
              = Ret (fit_error (errno ENOTDIR), s)).
  { intros Hres Hdir. unfold DirEntry_get_or_create_child. run_ms. reflexivity. }
  split; [|split; [exact Hnotdir|]].
  - intros Hres. unfold DirEntry_get_or_create_child. run_ms. reflexivity.
  - intros Hdir. split.
    + intros Hres. rewrite create_entry_as_internal. unfold DirEntry_create_entry_internal.
      rewrite Hres. reflexivity.
    + intros Hvalid.
      rewrite create_entry_as_internal, get_or_create_entry_as_internal.
      rewrite (create_entry_internal_valid _ _ _ _ _ _ Hvalid).
      rewrite (Hnotdir (proj1 Hvalid) Hdir). split; reflexivity.
Qed.

(** X3. [create_entry] and [get_or_create_entry] are two readings of one
    call of [create_entry_internal] (which, for a valid name, is
    [get_or_create_child]): they stop together or return together in the
    state that call left, and they return what it returned, error or
    entry, with one difference: [create_entry] answers EEXIST exactly when
    the call reported that the entry existed, where [get_or_create_entry] hands
    the entry out; for an entry reported as new both return the entry. *)
Theorem create_entry_agrees_with_get_or_create_entry this ct mount name fn s :
  match DirEntry_create_entry_internal this ct mount name fn s with
  | Ret (fit_ok (entry, true), s') =>
      DirEntry_create_entry this ct mount name fn s = Ret (fit_error (errno EEXIST), s') ∧
      DirEntry_get_or_create_entry this ct mount name fn s = Ret (fit_ok entry, s')
  | Ret (fit_ok (entry, false), s') =>
      DirEntry_create_entry this ct mount name fn s = Ret (fit_ok entry, s') ∧
      DirEntry_get_or_create_entry this ct mount name fn s = Ret (fit_ok entry, s')
  | Ret (fit_error e, s') =>
      DirEntry_create_entry this ct mount name fn s = Ret (fit_error e, s') ∧
      DirEntry_get_or_create_entry this ct mount name fn s = Ret (fit_error e, s')
  | Panic msg =>
      DirEntry_create_entry this ct mount name fn s = Panic msg ∧
      DirEntry_get_or_create_entry this ct mount name fn s = Panic msg
  end ∧
  (valid_name name →
   DirEntry_create_entry_internal this ct mount name fn s
     = DirEntry_get_or_create_child this ct mount name fn s).
Proof.
  split; [|apply create_entry_internal_valid].
  rewrite create_entry_as_internal, get_or_create_entry_as_internal.
  destruct (DirEntry_create_entry_internal this ct mount name fn s)
    as [[[[entry [|]]|e] s']|msg]; simpl; split; reflexivity.
Qed.

(** X4. A cache hit: the children tree holds a live child under the name,
    and the child's [revalidate] answers true.  Then [get_or_create_child]
    returns that child with [exists = true] after [did_access_dir_entry]
    and [revalidate] and nothing else: no backing lookup, no call of the
    creation function, no insertion.  [get_or_create_entry] returns the
    child and [create_entry] answers EEXIST, in that same state. *)
Theorem cache_hit_returns_cached_child this ct mount name fn s child s1 s2
    (Hname : valid_name name)
    (Hdir : FsNode_is_dir s (node_ this) = true)
    (Hhit : cached_child s this name = Some child)
    (Haccess : did_access_dir_entry (FsNode_fs (node_ child)) child s = Ret (tt, s1))
    (Hvalid : revalidate child ct s1 = Ret (fit_ok true, s2)) :
  DirEntry_get_or_create_child this ct mount name fn s = Ret (fit_ok (child, true), s2) ∧
  DirEntry_get_or_create_entry this ct mount name fn s = Ret (fit_ok child, s2) ∧
  DirEntry_create_entry this ct mount name fn s = Ret (fit_error (errno EEXIST), s2).
Proof.
  assert (Hgoc : DirEntry_get_or_create_child this ct mount name fn s
                 = Ret (fit_ok (child, true), s2)).
  { destruct Hname as (Hres & _). unfold DirEntry_get_or_create_child, cached_child in *.
    run_ms. reflexivity. }
  split; [exact Hgoc|].
  rewrite create_entry_as_internal, get_or_create_entry_as_internal.
  rewrite (create_entry_internal_valid _ _ _ _ _ _ Hname), Hgoc. split; reflexivity.
Qed.

(** X5. An error of [revalidate] is not returned to the caller: on a cache
    hit whose revalidation fails with any error, [get_or_create_child]
    takes the error of a result that holds a value, which stops the
    kernel; and so do [create_entry] and [get_or_create_entry]. *)
Theorem revalidate_error_stops_the_kernel this ct mount name fn s child s1 s2 (e : Errno)
    (Hname : valid_name name)
    (Hdir : FsNode_is_dir s (node_ this) = true)
    (Hhit : cached_child s this name = Some child)
    (Haccess : did_access_dir_entry (FsNode_fs (node_ child)) child s = Ret (tt, s1))
    (Hinvalid : revalidate child ct s1 = Ret (fit_error e, s2)) :
  DirEntry_get_or_create_child this ct mount name fn s = Panic take_error_abort ∧
  DirEntry_get_or_create_entry this ct mount name fn s = Panic take_error_abort ∧
  DirEntry_create_entry this ct mount name fn s = Panic take_error_abort.
Proof.
  assert (Hgoc : DirEntry_get_or_create_child this ct mount name fn s
                 = Panic take_error_abort).
  { destruct Hname as (Hres & _). unfold DirEntry_get_or_create_child, cached_child in *.
    run_ms. reflexivity. }
  split; [exact Hgoc|].
  rewrite create_entry_as_internal, get_or_create_entry_as_internal.
  rewrite (create_entry_internal_valid _ _ _ _ _ _ Hname), Hgoc. split; reflexivity.
Qed.

End DirEntryTheorems.

Section DirEntryCreation.
Context `{Env : DirEntryEnv}.
Implicit Types (this child entry : DirEntryHandle) (ct : CurrentTask) (mount : MountInfo).
Implicit Types (name : FsStr) (fn : CreateNodeFn) (s : St) (node : FsNode).

(** X6. Creation: no live child is cached, the backing lookup answers
    ENOENT and the creation function returns a node with its file type set.
    Then the entry that [DirEntry::New] builds for that node under this
    entry is inserted into the children, announced with
    [did_create_dir_entry], [purge_old_entries] runs, and
    [get_or_create_child] returns the entry with [exists = false];
    [revalidate] plays no part.  [create_entry] and [get_or_create_entry]
    return the entry. *)
Theorem create_entry_creates this ct mount name fn s (e : Errno) node entry
    s1 s2 s3 s4 s5 s6
    (Hname : valid_name name)
    (Hdir : FsNode_is_dir s (node_ this) = true)
    (Hmiss : cached_child s this name = None)
    (Hlookup : FsNode_lookup (node_ this) ct mount name s = Ret (fit_error e, s1))
    (Hnoent : error_code e = ENOENT)
    (Hcreate : fn (node_ this) mount name s1 = Ret (fit_ok node, s2))
    (Hmode : FsNode_mode_populated s2 node = true)
    (Hnew : DirEntry_New node (Some this) name s2 = Ret (entry, s3))
    (Hinsert : children_insert this entry s3 = Ret (tt, s4))
    (Hcreated : did_create_dir_entry (FsNode_fs (node_ entry)) entry s4 = Ret (tt, s5))
    (Hpurge : purge_old_entries (FsNode_fs (node_ entry)) s5 = Ret (tt, s6)) :
  DirEntry_get_or_create_child this ct mount name fn s = Ret (fit_ok (entry, false), s6) ∧
  DirEntry_create_entry this ct mount name fn s = Ret (fit_ok entry, s6) ∧
  DirEntry_get_or_create_entry this ct mount name fn s = Ret (fit_ok entry, s6).
Proof.
  assert (Hnode : find_or_create_node this ct mount name fn s
                  = Ret (fit_ok (node, Created), s2)).
  { unfold find_or_create_node. run_ms. reflexivity. }
  assert (Hgoc : DirEntry_get_or_create_child this ct mount name fn s
                 = Ret (fit_ok (entry, false), s6)).
  { rewrite (get_or_create_child_slow _ _ _ _ _ _ (proj1 Hname) Hdir Hmiss).
    unfold bind_s at 1.
    rewrite (locked_create_then_purge_creates _ _ _ _ _ _ _ _ _ _ _ _ _ _
               Hmiss Hnode Hmode Hnew Hinsert Hcreated Hpurge).
    reflexivity. }
  split; [exact Hgoc|].
  rewrite create_entry_as_internal, get_or_create_entry_as_internal.
  rewrite (create_entry_internal_valid _ _ _ _ _ _ Hname), Hgoc. split; reflexivity.
Qed.

(** X7. The name exists in the backing store but not in the cache: the
    backing lookup returns a node.  The entry built for it is inserted and
    announced like a created one, and then revalidated; with [revalidate]
    answering true, [get_or_create_child] returns it with [exists = true],
    [get_or_create_entry] returns it and [create_entry] answers EEXIST.
    The creation function is not called. *)
Theorem create_entry_finds_backing_node this ct mount name fn s node entry
    s1 s2 s3 s4 s5 s6
    (Hname : valid_name name)
    (Hdir : FsNode_is_dir s (node_ this) = true)
    (Hmiss : cached_child s this name = None)
    (Hlookup : FsNode_lookup (node_ this) ct mount name s = Ret (fit_ok node, s1))
    (Hmode : FsNode_mode_populated s1 node = true)
    (Hnew : DirEntry_New node (Some this) name s1 = Ret (entry, s2))
    (Hinsert : children_insert this entry s2 = Ret (tt, s3))
    (Hcreated : did_create_dir_entry (FsNode_fs (node_ entry)) entry s3 = Ret (tt, s4))
    (Hpurge : purge_old_entries (FsNode_fs (node_ entry)) s4 = Ret (tt, s5))
    (Hvalid : revalidate entry ct s5 = Ret (fit_ok true, s6)) :
  DirEntry_get_or_create_child this ct mount name fn s = Ret (fit_ok (entry, true), s6) ∧
  DirEntry_get_or_create_entry this ct mount name fn s = Ret (fit_ok entry, s6) ∧
  DirEntry_create_entry this ct mount name fn s = Ret (fit_error (errno EEXIST), s6).
Proof.
  assert (Hnode : find_or_create_node this ct mount name fn s
                  = Ret (fit_ok (node, Existed fn), s1)).
  { unfold find_or_create_node. run_ms. reflexivity. }
  assert (Hgoc : DirEntry_get_or_create_child this ct mount name fn s
                 = Ret (fit_ok (entry, true), s6)).
  { rewrite (get_or_create_child_slow _ _ _ _ _ _ (proj1 Hname) Hdir Hmiss).
    unfold bind_s at 1.
    rewrite (locked_create_then_purge_creates _ _ _ _ _ _ _ _ _ _ _ _ _ _
               Hmiss Hnode Hmode Hnew Hinsert Hcreated Hpurge).
    run_ms. reflexivity. }
  split; [exact Hgoc|].
  rewrite create_entry_as_internal, get_or_create_entry_as_internal.
  rewrite (create_entry_internal_valid _ _ _ _ _ _ Hname), Hgoc. split; reflexivity.
Qed.

(** X8. Errors of the backing store and of the creation function come back
    as they are, and nothing is built or inserted: a lookup error other
    than ENOENT is returned in the state the lookup left (the creation
    function is not called), and after ENOENT an error of the creation
    function is returned in the state that function left. *)
Theorem lookup_and_creation_errors_are_returned this ct mount name fn s
    (Hname : valid_name name)
    (Hdir : FsNode_is_dir s (node_ this) = true)
    (Hmiss : cached_child s this name = None) :
  (∀ (e : Errno) s1,
     FsNode_lookup (node_ this) ct mount name s = Ret (fit_error e, s1) →
     error_code e ≠ ENOENT →
     DirEntry_get_or_create_child this ct mount name fn s = Ret (fit_error e, s1) ∧
     DirEntry_create_entry this ct mount name fn s = Ret (fit_error e, s1) ∧
     DirEntry_get_or_create_entry this ct mount name fn s = Ret (fit_error e, s1)) ∧
  (∀ (e e' : Errno) s1 s2,
     FsNode_lookup (node_ this) ct mount name s = Ret (fit_error e, s1) →
     error_code e = ENOENT →
     fn (node_ this) mount name s1 = Ret (fit_error e', s2) →
     DirEntry_get_or_create_child this ct mount name fn s = Ret (fit_error e', s2) ∧
     DirEntry_create_entry this ct mount name fn s = Ret (fit_error e', s2) ∧
     DirEntry_get_or_create_entry this ct mount name fn s = Ret (fit_error e', s2)).
Proof.
  assert (Hfail : ∀ (e : Errno) s1,
            find_or_create_node this ct mount name fn s = Ret (fit_error e, s1) →
            DirEntry_get_or_create_child this ct mount name fn s = Ret (fit_error e, s1) ∧
            DirEntry_create_entry this ct mount name fn s = Ret (fit_error e, s1) ∧
            DirEntry_get_or_create_entry this ct mount name fn s = Ret (fit_error e, s1)).
  { intros e s1 Hnode.
    assert (Hgoc : DirEntry_get_or_create_child this ct mount name fn s
                   = Ret (fit_error e, s1)).
    { rewrite (get_or_create_child_slow _ _ _ _ _ _ (proj1 Hname) Hdir Hmiss).
      unfold bind_s at 1.
      rewrite (locked_create_then_purge_fails _ _ _ _ _ _ _ _ Hmiss Hnode). reflexivity. }
    split; [exact Hgoc|].
    rewrite create_entry_as_internal, get_or_create_entry_as_internal.
    rewrite (create_entry_internal_valid _ _ _ _ _ _ Hname), Hgoc. split; reflexivity. }
  split.
  - intros e s1 Hlookup Hcode. apply Hfail.
    unfold find_or_create_node. run_ms.
    destruct (Z.eqb_spec (error_code e) ENOENT) as [Heq|_]; [contradiction|reflexivity].
  - intros e e' s1 s2 Hlookup Hcode Hcreate. apply Hfail.
    unfold find_or_create_node. run_ms. reflexivity.
Qed.

(** X9. A node that comes back without its file type stops the kernel,
    whether the backing lookup found it or the creation function made it:
    no entry is built for it. *)
Theorem unpopulated_file_mode_stops_the_kernel this ct mount name fn s
    (Hname : valid_name name)
    (Hdir : FsNode_is_dir s (node_ this) = true)
    (Hmiss : cached_child s this name = None) :
  (∀ node s1,
     FsNode_lookup (node_ this) ct mount name s = Ret (fit_ok node, s1) →
     FsNode_mode_populated s1 node = false →
     DirEntry_get_or_create_child this ct mount name fn s = Panic file_mode_assertion ∧
     DirEntry_create_entry this ct mount name fn s = Panic file_mode_assertion) ∧
  (∀ (e : Errno) node s1 s2,
     FsNode_lookup (node_ this) ct mount name s = Ret (fit_error e, s1) →
     error_code e = ENOENT →
     fn (node_ this) mount name s1 = Ret (fit_ok node, s2) →
     FsNode_mode_populated s2 node = false →
     DirEntry_get_or_create_child this ct mount name fn s = Panic file_mode_assertion ∧
     DirEntry_create_entry this ct mount name fn s = Panic file_mode_assertion).
Proof.
  assert (Hstop : ∀ node (cr : CreationResult CreateNodeFn) s1,
            find_or_create_node this ct mount name fn s = Ret (fit_ok (node, cr), s1) →
            FsNode_mode_populated s1 node = false →
            DirEntry_get_or_create_child this ct mount name fn s = Panic file_mode_assertion ∧
            DirEntry_create_entry this ct mount name fn s = Panic file_mode_assertion).
  { intros node cr s1 Hnode Hmode.
    assert (Hgoc : DirEntry_get_or_create_child this ct mount name fn s
                   = Panic file_mode_assertion).
    { rewrite (get_or_create_child_slow _ _ _ _ _ _ (proj1 Hname) Hdir Hmiss).
      unfold bind_s at 1.
      rewrite (locked_create_then_purge_unpopulated _ _ _ _ _ _ _ _ _ Hmiss Hnode Hmode).
      reflexivity. }
    split; [exact Hgoc|].
    rewrite create_entry_as_internal.
    rewrite (create_entry_internal_valid _ _ _ _ _ _ Hname), Hgoc. reflexivity. }
  split.
  - intros node s1 Hlookup Hmode. apply (Hstop node (Existed fn) s1); [|exact Hmode].
    unfold find_or_create_node. run_ms. reflexivity.
  - intros e node s1 s2 Hlookup Hcode Hcreate Hmode.
    apply (Hstop node Created s2); [|exact Hmode].
    unfold find_or_create_node. run_ms. reflexivity.
Qed.

End DirEntryCreation.

Section DirEntryRevalidation.
Context `{Env : DirEntryEnv}.
Implicit Types (this child entry : DirEntryHandle) (ct : CurrentTask) (mount : MountInfo).
Implicit Types (name : FsStr) (fn : CreateNodeFn) (s : St) (node : FsNode).

(** X10. Under the children lock, a live child found in the tree is
    returned as existing after both filesystem hooks have run on it, first
    [did_access_dir_entry] and then [did_create_dir_entry]; neither the
    backing lookup nor the creation function nor the insertion is used. *)
Theorem locked_hit_runs_both_hooks entry_ ct mount name fn s child s1 s2
    (Hhit : cached_child s entry_ name = Some child)
    (Haccess : did_access_dir_entry (FsNode_fs (node_ child)) child s = Ret (tt, s1))
    (Hcreated : did_create_dir_entry (FsNode_fs (node_ child)) child s1 = Ret (tt, s2)) :
  DirEntryLockedChildren_get_or_create_child entry_ ct mount name fn s
    = Ret (fit_ok (child, Existed fn), s2).
Proof.
  unfold DirEntryLockedChildren_get_or_create_child, cached_child in *.
  destruct (children_find s entry_ name) as [weak|] eqn:Hfind; [|discriminate].
  run_ms. reflexivity.
Qed.

(** X11. A cached child whose [revalidate] answers false is removed with
    [internal_remove_child] and the lookup is done again under the lock.
    If the child is then gone from the cache, the entry built for the node
    that the backing lookup finds is returned with [exists = true] and is
    not revalidated in its turn; the entry built for a node that the
    creation function makes is returned with [exists = false]; and an
    error of that second lookup is not returned but stops the kernel. *)
Theorem failed_revalidation_replaces_child this ct mount name fn s child s1 s2 s3
    (Hname : valid_name name)
    (Hdir : FsNode_is_dir s (node_ this) = true)
    (Hhit : cached_child s this name = Some child)
    (Haccess : did_access_dir_entry (FsNode_fs (node_ child)) child s = Ret (tt, s1))
    (Hstale : revalidate child ct s1 = Ret (fit_ok false, s2))
    (Hremove : internal_remove_child this child s2 = Ret (tt, s3))
    (Hgone : cached_child s3 this name = None) :
  (∀ node entry s4 s5 s6 s7 s8,
     FsNode_lookup (node_ this) ct mount name s3 = Ret (fit_ok node, s4) →
     FsNode_mode_populated s4 node = true →
     DirEntry_New node (Some this) name s4 = Ret (entry, s5) →
     children_insert this entry s5 = Ret (tt, s6) →
     did_create_dir_entry (FsNode_fs (node_ entry)) entry s6 = Ret (tt, s7) →
     purge_old_entries (FsNode_fs (node_ entry)) s7 = Ret (tt, s8) →
     DirEntry_get_or_create_child this ct mount name fn s = Ret (fit_ok (entry, true), s8) ∧
     DirEntry_create_entry this ct mount name fn s = Ret (fit_error (errno EEXIST), s8)) ∧
  (∀ (e : Errno) node entry s4 s5 s6 s7 s8 s9,
     FsNode_lookup (node_ this) ct mount name s3 = Ret (fit_error e, s4) →
     error_code e = ENOENT →
     fn (node_ this) mount name s4 = Ret (fit_ok node, s5) →
     FsNode_mode_populated s5 node = true →
     DirEntry_New node (Some this) name s5 = Ret (entry, s6) →
     children_insert this entry s6 = Ret (tt, s7) →
     did_create_dir_entry (FsNode_fs (node_ entry)) entry s7 = Ret (tt, s8) →
     purge_old_entries (FsNode_fs (node_ entry)) s8 = Ret (tt, s9) →
     DirEntry_get_or_create_child this ct mount name fn s = Ret (fit_ok (entry, false), s9) ∧
     DirEntry_create_entry this ct mount name fn s = Ret (fit_ok entry, s9)) ∧
  (∀ (e : Errno) s4,
     FsNode_lookup (node_ this) ct mount name s3 = Ret (fit_error e, s4) →
     error_code e ≠ ENOENT →
     DirEntry_get_or_create_child this ct mount name fn s = Panic take_error_abort ∧
     DirEntry_create_entry this ct mount name fn s = Panic take_error_abort).
Proof.
  assert (Hretry : DirEntry_get_or_create_child this ct mount name fn s =
            match locked_create_then_purge this ct mount name fn s3 with
            | Ret (fit_ok (c, Created), s') => Ret (fit_ok (c, false), s')
            | Ret (fit_ok (c, Existed _), s') => Ret (fit_ok (c, true), s')
            | Ret (fit_error _, _) => Panic take_error_abort
            | Panic msg => Panic msg
            end).
  { destruct Hname as (Hres & _). unfold DirEntry_get_or_create_child. clear Hgone.
    unfold cached_child in Hhit. run_ms.
    destruct (locked_create_then_purge this ct mount name fn s3)
      as [[[[c [|f]]|e] s']|msg]; reflexivity. }
  assert (Hwrap : ∀ o, DirEntry_get_or_create_child this ct mount name fn s = o →
            DirEntry_create_entry this ct mount name fn s = map_returned as_create_entry o).
  { intros o <-. rewrite create_entry_as_internal.
    rewrite (create_entry_internal_valid _ _ _ _ _ _ Hname). reflexivity. }
  split; [|split].
  - intros node entry s4 s5 s6 s7 s8 Hlookup Hmode Hnew Hinsert Hcreated Hpurge.
    assert (Hnode : find_or_create_node this ct mount name fn s3
                    = Ret (fit_ok (node, Existed fn), s4)).
    { unfold find_or_create_node. run_ms. reflexivity. }
    rewrite (locked_create_then_purge_creates _ _ _ _ _ _ _ _ _ _ _ _ _ _
               Hgone Hnode Hmode Hnew Hinsert Hcreated Hpurge) in Hretry.
    split; [exact Hretry | rewrite (Hwrap _ Hretry); reflexivity].
  - intros e node entry s4 s5 s6 s7 s8 s9 Hlookup Hcode Hcreate Hmode Hnew Hinsert
      Hcreated Hpurge.
    assert (Hnode : find_or_create_node this ct mount name fn s3
                    = Ret (fit_ok (node, Created), s5)).
    { unfold find_or_create_node. run_ms. reflexivity. }
    rewrite (locked_create_then_purge_creates _ _ _ _ _ _ _ _ _ _ _ _ _ _
               Hgone Hnode Hmode Hnew Hinsert Hcreated Hpurge) in Hretry.
    split; [exact Hretry | rewrite (Hwrap _ Hretry); reflexivity].
  - intros e s4 Hlookup Hcode.
    assert (Hnode : find_or_create_node this ct mount name fn s3 = Ret (fit_error e, s4)).
    { unfold find_or_create_node. run_ms.
      destruct (Z.eqb_spec (error_code e) ENOENT) as [Heq|_]; [contradiction|reflexivity]. }
    rewrite (locked_create_then_purge_fails _ _ _ _ _ _ _ _ Hgone Hnode) in Hretry.
    split; [exact Hretry | rewrite (Hwrap _ Hretry); reflexivity].
Qed.

End DirEntryRevalidation.

(** ** A test double of the rest of the kernel, for running the cache code

    One directory whose children tree, backing store and hooks are a small
    record; every call into the environment is logged. *)

Record ToyState : Type := {
  toy_is_dir : bool;
  toy_backing : gmap string nat;         (* backing directory: node address by name *)
  toy_io_error : option Z;               (* the error every backing lookup fails with *)
  toy_children : gmap string DirEntry;   (* the children tree *)
  toy_dropped : list nat;                (* entries without a strong reference left *)
  toy_names : gmap nat string;           (* local name by entry address *)
  toy_revalidate : fit_result Errno bool;
  toy_next : nat;                        (* next unused address *)
  toy_trace : list string;               (* calls into the environment, latest first *)
}.

Definition toy_log (msg : string) (s : ToyState) : ToyState :=
  {| toy_is_dir := toy_is_dir s; toy_backing := toy_backing s;
     toy_io_error := toy_io_error s; toy_children := toy_children s;
     toy_dropped := toy_dropped s; toy_names := toy_names s;
     toy_revalidate := toy_revalidate s; toy_next := toy_next s;
     toy_trace := msg :: toy_trace s |}.

Definition toy_set_children (f : gmap string DirEntry → gmap string DirEntry)
    (s : ToyState) : ToyState :=
  {| toy_is_dir := toy_is_dir s; toy_backing := toy_backing s;
     toy_io_error := toy_io_error s; toy_children := f (toy_children s);
     toy_dropped := toy_dropped s; toy_names := toy_names s;
     toy_revalidate := toy_revalidate s; toy_next := toy_next s;
     toy_trace := toy_trace s |}.

Definition toy_set_backing (f : gmap string nat → gmap string nat) (s : ToyState)
    : ToyState :=
  {| toy_is_dir := toy_is_dir s; toy_backing := f (toy_backing s);
     toy_io_error := toy_io_error s; toy_children := toy_children s;
     toy_dropped := toy_dropped s; toy_names := toy_names s;
     toy_revalidate := toy_revalidate s; toy_next := toy_next s;
     toy_trace := toy_trace s |}.

Definition toy_alloc (name : string) (s : ToyState) : ToyState :=
  {| toy_is_dir := toy_is_dir s; toy_backing := toy_backing s;
     toy_io_error := toy_io_error s; toy_children := toy_children s;
     toy_dropped := toy_dropped s; toy_names := <[toy_next s := name]> (toy_names s);
     toy_revalidate := toy_revalidate s; toy_next := S (toy_next s);
     toy_trace := toy_trace s |}.

Definition toy_env : DirEntryEnv :=
  {| St := ToyState;
     CurrentTask := unit;
     WeakDirEntry := DirEntry;
     NAME_MAX := 255;
     SEPARATOR := "/"%char;
     FsNode_is_dir := fun s _ => toy_is_dir s;
     FsNode_mode_populated := fun _ n => negb (node_addr n =? 0)%nat;
     FsNode_lookup := fun n _ _ name s =>
       match toy_io_error s with
       | Some code => Ret (fit_error (errno code), toy_log "lookup" s)
       | None =>
           match toy_backing s !! name with
           | Some a => Ret (fit_ok {| node_addr := a; node_fs := node_fs n |},
                            toy_log "lookup" s)
           | None => Ret (fit_error (errno ENOENT), toy_log "lookup" s)
           end
       end;
     DirEntry_New := fun node _ name s =>
       Ret ({| entry_addr := toy_next s; node_ := node |}, toy_alloc name s);
     children_find := fun s _ name => toy_children s !! name;
     WeakDirEntry_Lock := fun s w =>
       if bool_decide (entry_addr w ∈ toy_dropped s) then None else Some w;
     children_insert := fun _ child s =>
       match toy_names s !! entry_addr child with
       | Some name => Ret (tt, toy_set_children (insert name child) s)
       | None => Panic "GetKey"
       end;
     did_access_dir_entry := fun _ _ s => Ret (tt, toy_log "did_access_dir_entry" s);
     did_create_dir_entry := fun _ _ s => Ret (tt, toy_log "did_create_dir_entry" s);
     purge_old_entries := fun _ s => Ret (tt, toy_log "purge_old_entries" s);
     revalidate := fun _ _ s => Ret (toy_revalidate s, toy_log "revalidate" s);
     internal_remove_child := fun _ child s =>
       match toy_names s !! entry_addr child with
       | Some name => Ret (tt, toy_set_children (delete name) s)
       | None => Ret (tt, s)
       end |}.

(** A creation function that makes a node and one that fails (ENOSPC). *)
Definition toy_mkfile : @CreateNodeFn toy_env := fun parent _ name s =>
  Ret (fit_ok {| node_addr := 100 + toy_next s; node_fs := node_fs parent |},
       toy_set_backing (insert name (100 + toy_next s)) (toy_log "create_fn" s)).

Definition toy_full : @CreateNodeFn toy_env := fun _ _ _ s =>
  Ret (fit_error (errno 28), toy_log "create_fn" s).

(** The directory, and the entry that the states below cache under "log". *)
Definition toy_dir : DirEntry :=
  {| entry_addr := 0; node_ := {| node_addr := 50; node_fs := fs10 |} |}.

Definition toy_log_entry : DirEntry :=
  {| entry_addr := 1; node_ := {| node_addr := 101; node_fs := fs10 |} |}.

Definition toy_state (is_dir : bool) (backing : gmap string nat) (io_error : option Z)
    (children : gmap string DirEntry) (answer : fit_result Errno bool) : ToyState :=
  {| toy_is_dir := is_dir; toy_backing := backing; toy_io_error := io_error;
     toy_children := children; toy_dropped := [];
     toy_names := {[ 1 := "log"%string ]};
     toy_revalidate := answer; toy_next := 2; toy_trace := [] |}.

(** An empty directory; one with "log" in the backing store only; one with
    "log" cached, whose revalidation answers as given. *)
Definition toy_empty : ToyState := toy_state true ∅ None ∅ (fit_ok true).

Definition toy_uncached : ToyState :=
  toy_state true {[ "log"%string := 101 ]} None ∅ (fit_ok true).

Definition toy_cached (answer : fit_result Errno bool) : ToyState :=
  toy_state true {[ "log"%string := 101 ]} None {[ "log"%string := toy_log_entry ]} answer.

Lemma valid_name_log : @valid_name toy_env "log".
Proof. repeat split. simpl. lia. Qed.

(** ** The cache theorems at work on the test double *)

Lemma cache_hit_returns_cached_child_witness :
  ∃ s', @DirEntry_get_or_create_entry toy_env toy_dir tt MountInfo_detached "log"
          toy_mkfile (toy_cached (fit_ok true)) = Ret (fit_ok toy_log_entry, s') ∧
        @DirEntry_create_entry toy_env toy_dir tt MountInfo_detached "log"
          toy_mkfile (toy_cached (fit_ok true)) = Ret (fit_error (errno EEXIST), s').
Proof.
  eexists.
  refine (proj2 (@cache_hit_returns_cached_child toy_env toy_dir tt MountInfo_detached "log"
            toy_mkfile (toy_cached (fit_ok true)) toy_log_entry _ _
            valid_name_log _ _ _ _)); reflexivity.
Defined.

Lemma revalidate_error_stops_the_kernel_witness :
  @DirEntry_get_or_create_entry toy_env toy_dir tt MountInfo_detached "log"
    toy_mkfile (toy_cached (fit_error (errno 5))) = Panic take_error_abort.
Proof.
  refine (proj1 (proj2 (@revalidate_error_stops_the_kernel toy_env toy_dir tt
            MountInfo_detached "log" toy_mkfile (toy_cached (fit_error (errno 5)))
            toy_log_entry _ _ (errno 5) valid_name_log _ _ _ _))); reflexivity.
Defined.

Lemma create_entry_creates_witness :
  ∃ entry s', @DirEntry_create_entry toy_env toy_dir tt MountInfo_detached "log"
                toy_mkfile toy_empty = Ret (fit_ok entry, s').
Proof.
  eexists _, _.
  refine (proj1 (proj2 (@create_entry_creates toy_env toy_dir tt MountInfo_detached "log"
            toy_mkfile toy_empty (errno ENOENT) _ _ _ _ _ _ _ _
            valid_name_log _ _ _ _ _ _ _ _ _ _))); reflexivity.
Defined.

Lemma create_entry_finds_backing_node_witness :
  ∃ s', @DirEntry_create_entry toy_env toy_dir tt MountInfo_detached "log"
          toy_mkfile toy_uncached = Ret (fit_error (errno EEXIST), s').
Proof.
  eexists.
  refine (proj2 (proj2 (@create_entry_finds_backing_node toy_env toy_dir tt
            MountInfo_detached "log" toy_mkfile toy_uncached _ _ _ _ _ _ _ _
            valid_name_log _ _ _ _ _ _ _ _ _))); reflexivity.
Defined.

Lemma lookup_and_creation_errors_are_returned_witness :
  (∃ s', @DirEntry_create_entry toy_env toy_dir tt MountInfo_detached "log"
           toy_mkfile (toy_state true ∅ (Some 5%Z) ∅ (fit_ok true))
         = Ret (fit_error (errno 5), s')) ∧
  (∃ s', @DirEntry_create_entry toy_env toy_dir tt MountInfo_detached "log"
           toy_full toy_empty = Ret (fit_error (errno 28), s')).
Proof.
  split; eexists.
  - refine (proj1 (proj2 (proj1 (@lookup_and_creation_errors_are_returned toy_env toy_dir tt
              MountInfo_detached "log" toy_mkfile (toy_state true ∅ (Some 5%Z) ∅ (fit_ok true))
              valid_name_log _ _) (errno 5) _ _ _)));
      [reflexivity | reflexivity | reflexivity | discriminate].
  - refine (proj1 (proj2 (proj2 (@lookup_and_creation_errors_are_returned toy_env toy_dir tt
              MountInfo_detached "log" toy_full toy_empty
              valid_name_log _ _) (errno ENOENT) (errno 28) _ _ _ _ _))); reflexivity.
Defined.

Lemma unpopulated_file_mode_stops_the_kernel_witness :
  @DirEntry_create_entry toy_env toy_dir tt MountInfo_detached "log" toy_mkfile
    (toy_state true {[ "log"%string := 0 ]} None ∅ (fit_ok true))
  = Panic file_mode_assertion.
Proof.
  refine (proj2 (proj1 (@unpopulated_file_mode_stops_the_kernel toy_env toy_dir tt
            MountInfo_detached "log" toy_mkfile
            (toy_state true {[ "log"%string := 0 ]} None ∅ (fit_ok true))
            valid_name_log _ _) _ _ _ _)); reflexivity.
Defined.

Lemma locked_hit_runs_both_hooks_witness :
  ∃ s', @DirEntryLockedChildren_get_or_create_child toy_env toy_dir tt MountInfo_detached
          "log" toy_mkfile (toy_cached (fit_ok true))
        = Ret (fit_ok (toy_log_entry, Existed toy_mkfile), s') ∧
        toy_trace s' = ["did_create_dir_entry"; "did_access_dir_entry"]%string.
Proof.
  eexists. split.
  - refine (@locked_hit_runs_both_hooks toy_env toy_dir tt MountInfo_detached "log"
              toy_mkfile (toy_cached (fit_ok true)) toy_log_entry _ _ _ _ _); reflexivity.
  - reflexivity.
Defined.

Lemma failed_revalidation_replaces_child_witness :
  ∃ entry s', @DirEntry_get_or_create_child toy_env toy_dir tt MountInfo_detached "log"
                toy_mkfile (toy_cached (fit_ok false)) = Ret (fit_ok (entry, true), s') ∧
              entry ≠ toy_log_entry.
Proof.
  eexists _, _. split.
  - refine (proj1 (proj1 (@failed_revalidation_replaces_child toy_env toy_dir tt
              MountInfo_detached "log" toy_mkfile (toy_cached (fit_ok false))
              toy_log_entry _ _ _ valid_name_log _ _ _ _ _ _) _ _ _ _ _ _ _ _ _ _ _ _ _));
      reflexivity.
  - discriminate.
Defined.

(** * More on the mount layer: what the calls leave alone *)

Section MountFrame.
Context `{E : MountFlagsEnum}.

Lemma step_frame (w w' : World) (e : event) :
  step w e w' →
  fs_roots w' = fs_roots w ∧
  dom (kernels w') = dom (kernels w) ∧
  (∀ k, anon_fs_of k [e] = [] → anon_fs_cell w' k = anon_fs_cell w k) ∧
  (∀ k, mounts_of k [e] = [] → mount_id_counter w' k = mount_id_counter w k).
Proof.
  unfold anon_fs_cell, mount_id_counter.
  intros Hs.
  destruct Hs as [w root flags k0 Hfl Hk Hheap | w | w kernel k0 fs Hk Hfs
                 | w kernel k0 Hk Hfs Hheap]; simpl.
  - split; [reflexivity|]. split; [apply dom_insert_lookup_L; eauto|]. split.
    + intros k _. destruct (decide (kernel_ (FsNode_fs (node_ root)) = k)) as [<-|Hne].
      * rewrite lookup_insert_eq, Hk. reflexivity.
      * rewrite lookup_insert_ne by exact Hne. reflexivity.
    + intros k. destruct (decide (kernel_ (FsNode_fs (node_ root)) = k)) as [Heq|Hne].
      * discriminate.
      * intros _. rewrite lookup_insert_ne by exact Hne. reflexivity.
  - auto.
  - auto.
  - split; [reflexivity|]. split; [apply dom_insert_lookup_L; eauto|]. split.
    + intros k. destruct (decide (kernel = k)) as [Heq|Hne].
      * discriminate.
      * intros _. rewrite lookup_insert_ne by exact Hne. reflexivity.
    + intros k _. destruct (decide (kernel = k)) as [<-|Hne].
      * rewrite lookup_insert_eq, Hk. reflexivity.
      * rewrite lookup_insert_ne by exact Hne. reflexivity.
Qed.

Lemma steps_frame (w w' : World) (es : list event) :
  steps w es w' →
  fs_roots w' = fs_roots w ∧
  dom (kernels w') = dom (kernels w) ∧
  (∀ k, anon_fs_of k es = [] → anon_fs_cell w' k = anon_fs_cell w k) ∧
  (∀ k, mounts_of k es = [] → mount_id_counter w' k = mount_id_counter w k).
Proof.
  induction 1 as [w | w w1 w' e es Hs Hss (IHr & IHd & IHa & IHm)].
  - auto.
  - destruct (step_frame _ _ _ Hs) as (Hr & Hd & Ha & Hm).
    split; [congruence|]. split; [congruence|]. split.
    + intros k. rewrite anon_fs_of_cons. intros [He Hes]%app_eq_nil.
      rewrite (IHa k Hes). apply Ha, He.
    + intros k. rewrite mounts_of_cons. intros [He Hes]%app_eq_nil.
      rewrite (IHm k Hes). apply Hm, He.
Qed.

(** X12. What a run of [Mount::new_with_root], [Mount::New] and [anon_fs]
    calls leaves alone: no filesystem's root cell changes and no kernel
    appears or disappears; the [anon_fs_] cell of a kernel is the one before
    the run unless the run called [anon_fs] on that kernel; and its
    mount-id counter is the one before the run unless the run created a
    mount on one of its filesystems.  So [anon_fs] takes no mount id and
    mounting builds no anonymous filesystem. *)
Theorem run_leaves_the_rest_alone (cs : list call) (w w' : World) (es : list event)
    (Hrun : run cs w = Ret (es, w')) :
  fs_roots w' = fs_roots w ∧
  dom (kernels w') = dom (kernels w) ∧
  (∀ k, anon_fs_of k es = [] → anon_fs_cell w' k = anon_fs_cell w k) ∧
  (∀ k, mounts_of k es = [] → mount_id_counter w' k = mount_id_counter w k).
Proof. apply steps_frame. apply (run_steps cs). exact Hrun. Qed.

(** X13. The anonymous filesystem of a kernel can carry a mount.  After
    the first [anon_fs(kernel)] on a live kernel, [new_with_root] on a root
    entry of the filesystem it returned passes the kernel assertion and
    returns a mount of that filesystem whose id is the value the kernel's
    counter had before [anon_fs] ran; and [anon_fs(kernel)] afterwards still
    returns the same filesystem. *)
Theorem mount_on_anon_fs (kernel : addr) (w : World) (kn : Kernel) (flags : MountFlags)
    (Hlive : kernels w !! kernel = Some kn)
    (Hempty : anon_fs_ kn = None)
    (Hheap : (3 ≤ heap_avail (heap w))%nat)
    (Hflags : MountFlags_intersects flags (MountFlags_of STORED_ON_MOUNT) = false) :
  ∃ fs w1,
    anon_fs kernel w = Ret (fs, w1) ∧
    ∀ root, FsNode_fs (node_ root) = fs →
      ∃ m w2,
        Mount_new_with_root root flags w1 = Ret (Some m, w2) ∧
        id_ m = next_mount_id_ kn ∧ fs_ m = fs ∧ root_ m = root ∧
        anon_fs kernel w2 = Ret (fs, w2).
Proof.
  rewrite anon_fs_cases, Hlive, Hempty.
  destruct (heap_avail (heap w)) as [|[|[|n]]] eqn:Hn; [lia..|].
  eexists _, _. split; [reflexivity|].
  intros root Hroot. rewrite new_with_root_cases, Hflags, Hroot. simpl.
  rewrite lookup_insert_eq, Hn. simpl.
  eexists _, _. split; [reflexivity|]. simpl.
  split; [reflexivity|]. split; [reflexivity|]. split; [reflexivity|].
  apply anon_fs_initialized. unfold anon_fs_cell. simpl.
  rewrite lookup_insert_eq. simpl. reflexivity.
Qed.

(** X14. A mount context is usable exactly when it is detached or holds a
    mount: [flags()] and [check_readonly_filesystem()] return for those and
    for no other.  For a context that holds the null handle, such as the
    handle [Mount::New] returns for a Bind request, both go through the
    null pointer. *)
Theorem null_handle_context_is_unusable (mi : MountInfo) :
  ((∃ r, MountInfo_check_readonly_filesystem mi = Ret r) ↔
   (mi = MountInfo_detached ∨ ∃ m, mi = MountInfo_attached m)) ∧
  (∀ v flags w h w',
     Mount_New {| type := Bind; what := v |} flags w = Ret (h, w') →
     MountInfo_flags {| handle_ := Some h |}
       = Panic "dereferenced a null fbl::RefPtr<Mount>" ∧
     MountInfo_check_readonly_filesystem {| handle_ := Some h |}
       = Panic "dereferenced a null fbl::RefPtr<Mount>").
Proof.
  split.
  - rewrite <- MountInfo_flags_returns. unfold MountInfo_check_readonly_filesystem.
    destruct (MountInfo_flags mi) as [f|msg]; split.
    + intros _. eauto.
    + intros _. destruct (MountFlags_contains f RDONLY); eauto.
    + intros [r Hr]. discriminate.
    + intros [f Hf]. discriminate.
  - intros v flags w h w' [= <- _]. split; reflexivity.
Qed.

End MountFrame.

Lemma run_leaves_the_rest_alone_witness :
  fs_roots world1 = fs_roots world0 ∧
  dom (kernels world1) = dom (kernels world0) ∧
  anon_fs_cell world1 2 = anon_fs_cell world0 2 ∧
  mount_id_counter world1 2 = mount_id_counter world0 2.
Proof.
  destruct (@run_leaves_the_rest_alone linux_uapi calls0 world0 world1 events0 run_calls0)
    as (Hr & Hd & Ha & Hm).
  split; [exact Hr|]. split; [exact Hd|].
  split; [apply Ha | apply Hm]; reflexivity.
Defined.

Lemma mount_on_anon_fs_witness :
  ∃ fs w1, anon_fs 1 world0 = Ret (fs, w1) ∧
    ∃ m w2, @Mount_new_with_root linux_uapi
              {| entry_addr := 30; node_ := {| node_addr := 31; node_fs := fs |} |}
              no_flags w1 = Ret (Some m, w2) ∧ id_ m = 1%Z.
Proof.
  destruct (@mount_on_anon_fs linux_uapi 1 world0 {| next_mount_id_ := 1; anon_fs_ := None |}
              no_flags) as (fs & w1 & Hfs & Hmount);
    [reflexivity | reflexivity | simpl; lia | reflexivity |].
  exists fs, w1. split; [exact Hfs|].
  destruct (Hmount {| entry_addr := 30; node_ := {| node_addr := 31; node_fs := fs |} |})
    as (m & w2 & Hm & Hid & _); [reflexivity|].
  exists m, w2. split; [exact Hm | exact Hid].
Defined.

Lemma create_entry_rejects_bad_names_witness :
  @DirEntry_create_entry toy_env toy_dir tt MountInfo_detached ".." toy_mkfile toy_empty
    = Ret (fit_error (errno EEXIST), toy_empty) ∧
  @DirEntry_create_entry toy_env toy_dir tt MountInfo_detached "var/log" toy_mkfile toy_empty
    = Ret (fit_error (errno EINVAL), toy_empty).
Proof.
  split.
  - apply (@create_entry_rejects_bad_names toy_env toy_dir tt MountInfo_detached ".."
             toy_mkfile toy_empty). right. right. reflexivity.
  - apply (@create_entry_rejects_bad_names toy_env toy_dir tt MountInfo_detached "var/log"
             toy_mkfile toy_empty); [reflexivity | simpl; lia | reflexivity].
Defined.

Lemma get_or_create_child_needs_directory_witness :
  @DirEntry_get_or_create_child toy_env toy_dir tt MountInfo_detached "." toy_mkfile toy_empty
    = Panic reserved_name_assertion ∧
  @DirEntry_create_entry toy_env toy_dir tt MountInfo_detached "log" toy_mkfile
    (toy_state false ∅ None ∅ (fit_ok true))
    = Ret (fit_error (errno ENOTDIR), toy_state false ∅ None ∅ (fit_ok true)).
Proof.
  split.
  - apply (@get_or_create_child_needs_directory toy_env toy_dir tt MountInfo_detached "."
             toy_mkfile toy_empty). reflexivity.
  - apply (@get_or_create_child_needs_directory toy_env toy_dir tt MountInfo_detached "log"
             toy_mkfile (toy_state false ∅ None ∅ (fit_ok true)));
      [reflexivity | exact valid_name_log].
Defined.

Lemma create_entry_agrees_with_get_or_create_entry_witness :
  (∃ s', @DirEntry_create_entry toy_env toy_dir tt MountInfo_detached "log" toy_mkfile
           (toy_cached (fit_ok true)) = Ret (fit_error (errno EEXIST), s') ∧
         @DirEntry_get_or_create_entry toy_env toy_dir tt MountInfo_detached "log" toy_mkfile
           (toy_cached (fit_ok true)) = Ret (fit_ok toy_log_entry, s')) ∧
  (∃ entry s', @DirEntry_create_entry toy_env toy_dir tt MountInfo_detached "log" toy_mkfile
                 toy_empty = Ret (fit_ok entry, s') ∧
               @DirEntry_get_or_create_entry toy_env toy_dir tt MountInfo_detached "log"
                 toy_mkfile toy_empty = Ret (fit_ok entry, s')).
Proof.
  split.
  - pose proof (proj1 (@create_entry_agrees_with_get_or_create_entry toy_env toy_dir tt
                         MountInfo_detached "log" toy_mkfile (toy_cached (fit_ok true)))) as H.
    eexists. exact H.
  - pose proof (proj1 (@create_entry_agrees_with_get_or_create_entry toy_env toy_dir tt
                         MountInfo_detached "log" toy_mkfile toy_empty)) as H.
    eexists _, _. exact H.
Defined.
